(** * Assessment platform: attempt lifecycle, grading and proctoring

    A shallow embedding of the two back-end services
    [backend/assessment_service/index.js] and
    [backend/proctor_service/index.js].

    Each route handler is a function from the request parameters and the
    state of the stores (MongoDB collections, the Redis cache) to a new
    state and a reply.  A handler runs from its first line to its reply as
    one transition.  Clock readings ([new Date()]), the ObjectId given to a
    new document and the outcomes of [Math.random()] are inputs of the
    transition. *)

From Stdlib Require Import ZArith QArith Lia Bool Floats.
From stdpp Require Import gmap strings list fin_maps.

Local Open Scope string_scope.
Local Open Scope Z_scope.

(** ** JavaScript values carried by requests *)

Module Js.

(** A scalar of a JSON body. *)
Inductive JsAtom :=
| JStr (s : string)
| JNum (n : Z)
| JBool (b : bool)
| JNull.

(** The [answer] field of a request body ([Mixed] in the schema): absent,
    a scalar, or an array of scalars. *)
Inductive JsAnswer :=
| AnsUndefined
| AnsAtom (a : JsAtom)
| AnsArray (l : list JsAtom).

(** [ids.includes(x)] for an array [ids] of strings: only a string can be
    found in it. *)
Definition includes (ids : list string) (x : JsAtom) : bool :=
  match x with
  | JStr s => existsb (String.eqb s) ids
  | _ => false
  end.

(** [id === answer] for a string [id]. *)
Definition strict_eq (id : string) (answer : JsAnswer) : bool :=
  match answer with
  | AnsAtom (JStr s) => String.eqb id s
  | _ => false
  end.

(** The result of a division of two integers as JavaScript computes it:
    a finite quotient, [NaN] for 0/0 and an infinity for n/0.  The finite
    case carries the quotient as a rational. *)
Inductive JsNumber :=
| JsFinite (q : Q)
| JsNaN
| JsInfinity (negative : bool).

Definition js_div (a b : Z) : JsNumber :=
  if b =? 0 then
    if a =? 0 then JsNaN else JsInfinity (a <? 0)
  else JsFinite (Qmake (a * Z.sgn b) (Z.to_pos (Z.abs b))).

Definition js_times (x : JsNumber) (k : Z) : JsNumber :=
  match x with
  | JsFinite q => JsFinite (q * inject_Z k)
  | JsNaN => JsNaN
  | JsInfinity s => if k =? 0 then JsNaN else JsInfinity (xorb s (k <? 0))
  end.

Definition is_finite (x : JsNumber) : bool :=
  match x with JsFinite _ => true | _ => false end.

End Js.

Import Js.

(** ** What the two services share *)

Module Http.

(** The decoded token of the caller ([req.user]), as [authenticate] leaves
    it on the request. *)
Record User := {
  userId : string;
  role : string;
  organization : option string
}.

(** The reply of a handler: a success body or one of its errors. *)
Inductive Reply (E A : Type) :=
| Ok (body : A)
| Fail (e : E).
Arguments Ok {E A} body.
Arguments Fail {E A} e.

(** [['admin', 'instructor'].includes(req.user.role)] *)
Definition isStaff (u : User) : bool :=
  String.eqb (role u) "admin" || String.eqb (role u) "instructor".

End Http.

Import Http.

(** ** The assessment service *)

Module AssessmentService.

(** *** Documents *)

Inductive QuestionType :=
| MultipleChoice | SingleChoice | TrueFalse | FillInTheBlank | Essay | Coding.

Record QOption := {
  opt_id : string;
  opt_text : string;
  opt_isCorrect : bool
}.

Record Question := {
  q_type : QuestionType;
  q_options : list QOption;
  q_points : Z;
  q_createdBy : string;
  q_organization : option string
}.

Inductive AssessmentStatus := Draft | Published | Archived.

(** An entry of [assessment.questions]: the question and the points it is
    worth in this assessment ([points] may be missing). *)
Record AssessmentQuestion := {
  aq_question : string;
  aq_points : option Z
}.

(** Times are milliseconds since the epoch, [a_duration] is in minutes. *)
Record Assessment := {
  a_title : string;
  a_duration : Z;
  a_totalPoints : Z;
  a_passingScore : Z;
  a_questions : list AssessmentQuestion;
  a_randomizeQuestions : bool;
  a_allowedAttempts : Z;
  a_startTime : option Z;
  a_endTime : option Z;
  a_createdBy : string;
  a_organization : option string;
  a_status : AssessmentStatus
}.

Inductive AttemptStatus := InProgress | Completed | Abandoned | TimedOut.

Record AnswerSlot := {
  ans_question : string;
  ans_answer : JsAnswer;
  ans_isCorrect : option bool;
  ans_points : Z;
  ans_timeSpent : option Z
}.

Record AttemptEvent := {
  ev_type : option string;
  ev_timestamp : Z;
  ev_details : string
}.

(** [at_completionTime] is in seconds: a number of milliseconds divided
    by 1000, kept as that rational. *)
Record Attempt := {
  at_assessment : string;
  at_user : string;
  at_startTime : Z;
  at_endTime : option Z;
  at_completionTime : option Q;
  at_answers : list AnswerSlot;
  at_totalScore : Z;
  at_maxPossibleScore : Z;
  at_status : AttemptStatus;
  at_proctorEvents : list AttemptEvent
}.

(** The value stored in Redis under [attempt_<id>], with its time to live
    in seconds. *)
Record CacheEntry := {
  c_assessmentId : string;
  c_userId : string;
  c_startTime : Z;
  c_ttl : Z
}.

Record State := {
  questions : gmap string Question;
  assessments : gmap string Assessment;
  attempts : gmap string Attempt;
  redis : gmap string CacheEntry
}.

Definition set_attempts (f : gmap string Attempt → gmap string Attempt) (st : State) : State :=
  {| questions := questions st; assessments := assessments st;
     attempts := f (attempts st); redis := redis st |}.

Definition set_redis (f : gmap string CacheEntry → gmap string CacheEntry) (st : State) : State :=
  {| questions := questions st; assessments := assessments st;
     attempts := attempts st; redis := f (redis st) |}.

Definition set_assessments (f : gmap string Assessment → gmap string Assessment) (st : State) : State :=
  {| questions := questions st; assessments := f (assessments st);
     attempts := attempts st; redis := redis st |}.

Definition set_questions (f : gmap string Question → gmap string Question) (st : State) : State :=
  {| questions := f (questions st); assessments := assessments st;
     attempts := attempts st; redis := redis st |}.

(** *** Replies *)

Inductive Error :=
| AssessmentNotFound
| AssessmentNotPublished
| AssessmentNotStarted
| AssessmentEnded
| MaxAttemptsReached
| AttemptNotFound
| QuestionNotFound
| PermissionDenied
| AttemptAlreadyCompleted
| TimeLimitExceeded
| QuestionNotInAttempt
| ServerError.

Definition http_status (e : Error) : Z :=
  match e with
  | AssessmentNotFound | AttemptNotFound | QuestionNotFound => 404
  | PermissionDenied => 403
  | ServerError => 500
  | _ => 400
  end.

Definition message (e : Error) : string :=
  match e with
  | AssessmentNotFound => "Assessment not found"
  | AssessmentNotPublished => "Assessment is not published"
  | AssessmentNotStarted => "Assessment has not started yet"
  | AssessmentEnded => "Assessment has already ended"
  | MaxAttemptsReached => "Maximum attempts reached"
  | AttemptNotFound => "Attempt not found"
  | QuestionNotFound => "Question not found"
  | PermissionDenied => "Permission denied"
  | AttemptAlreadyCompleted => "Attempt is already completed"
  | TimeLimitExceeded => "Assessment time limit exceeded"
  | QuestionNotInAttempt => "Question not found in this attempt"
  | ServerError => "Server error"
  end.

Abbreviation Reply := (Http.Reply Error).

(** *** Helpers of the handlers *)

Definition is_in_progress (s : AttemptStatus) : bool :=
  match s with InProgress => true | _ => false end.

Definition is_published (s : AssessmentStatus) : bool :=
  match s with Published => true | _ => false end.

(** [assessment.startTime && assessment.startTime > now] *)
Definition notStartedYet (a : Assessment) (now : Z) : bool :=
  match a_startTime a with
  | Some t => now <? t
  | None => false
  end.

(** [assessment.endTime && assessment.endTime < now] *)
Definition alreadyEnded (a : Assessment) (now : Z) : bool :=
  match a_endTime a with
  | Some t => t <? now
  | None => false
  end.

(** The filter [{ assessment, user }] of the count below. *)
Definition counted (aid uid : string) (t : Attempt) : bool :=
  String.eqb (at_assessment t) aid && String.eqb (at_user t) uid.

(** [Attempt.countDocuments({ assessment, user })] *)
Definition attemptCount (aid uid : string) (atts : gmap string Attempt) : Z :=
  Z.of_nat (length (List.filter
    (fun kv : string * Attempt => counted aid uid kv.2) (map_to_list atts))).

(** [[...questions].sort(() => Math.random() - 0.5)]: a comparison sort
    whose comparator ignores its arguments and answers by a coin.  The
    sort is an insertion sort here; [coins] are the successive outcomes
    of [Math.random() - 0.5 < 0]. *)
Fixpoint insertRandom {A} (x : A) (l : list A) (coins : list bool) : list A * list bool :=
  match l with
  | [] => ([x], coins)
  | y :: l' =>
    match coins with
    | [] => (x :: y :: l', [])
    | true :: cs => (x :: y :: l', cs)
    | false :: cs => let '(r, cs') := insertRandom x l' cs in (y :: r, cs')
    end
  end.

Fixpoint randomSort {A} (l : list A) (coins : list bool) : list A * list bool :=
  match l with
  | [] => ([], coins)
  | x :: l' => let '(r, cs) := randomSort l' coins in insertRandom x r cs
  end.

Definition newSlot (q : AssessmentQuestion) : AnswerSlot :=
  {| ans_question := aq_question q; ans_answer := AnsUndefined;
     ans_isCorrect := None; ans_points := 0; ans_timeSpent := None |}.

Definition cacheKey (attemptId : string) : string := "attempt_" +:+ attemptId.

Record StartReply := {
  sr_attemptId : string;
  sr_questions : list AssessmentQuestion;
  sr_duration : Z;
  sr_startTime : Z
}.

(** *** POST /api/assessments/:id/attempt *)

Definition startAttempt (now : Z) (newId : string) (coins : list bool)
    (u : User) (id : string) (st : State) : State * Reply StartReply :=
  match assessments st !! id with
  | None => (st, Fail AssessmentNotFound)
  | Some assessment =>
    if negb (is_published (a_status assessment)) then (st, Fail AssessmentNotPublished)
    else if notStartedYet assessment now then (st, Fail AssessmentNotStarted)
    else if alreadyEnded assessment now then (st, Fail AssessmentEnded)
    else if a_allowedAttempts assessment <=? attemptCount id (userId u) (attempts st)
    then (st, Fail MaxAttemptsReached)
    else
      let qs := if a_randomizeQuestions assessment
                then (randomSort (a_questions assessment) coins).1
                else a_questions assessment in
      let attempt :=
        {| at_assessment := id; at_user := userId u; at_startTime := now;
           at_endTime := None; at_completionTime := None;
           at_answers := map newSlot qs;
           at_totalScore := 0;
           at_maxPossibleScore := a_totalPoints assessment;
           at_status := InProgress; at_proctorEvents := [] |} in
      match attempts st !! newId with
      | Some _ => (st, Fail ServerError)
      | None =>
        let entry := {| c_assessmentId := id; c_userId := userId u;
                        c_startTime := now;
                        c_ttl := a_duration assessment * 60 |} in
        (set_redis (insert (cacheKey newId) entry)
           (set_attempts (insert newId attempt) st),
         Ok {| sr_attemptId := newId; sr_questions := qs;
               sr_duration := a_duration assessment; sr_startTime := now |})
      end
  end.

(** *** POST /api/attempts/:id/answers *)

Definition isAutoGraded (t : QuestionType) : bool :=
  match t with
  | MultipleChoice | SingleChoice | TrueFalse => true
  | _ => false
  end.

Definition correctOptionIds (q : Question) : list string :=
  map opt_id (List.filter opt_isCorrect (q_options q)).

(** The multiple-choice branch:
    [Array.isArray(answer) && answer.length === correctOptionIds.length
     && answer.every(id => correctOptionIds.includes(id))] *)
Definition gradeMultipleChoice (q : Question) (answer : JsAnswer) : bool :=
  match answer with
  | AnsArray l =>
    (length l =? length (correctOptionIds q))%nat
    && forallb (includes (correctOptionIds q)) l
  | _ => false
  end.

(** The single-choice and true-false branch:
    [correctOption && correctOption.id === answer]; without a correct
    option the result is [undefined]. *)
Definition gradeSingleChoice (q : Question) (answer : JsAnswer) : option bool :=
  match List.find opt_isCorrect (q_options q) with
  | Some o => Some (strict_eq (opt_id o) answer)
  | None => None
  end.

(** [isCorrect ? question.points : 0] *)
Definition awarded (isCorrect : option bool) (q : Question) : Z :=
  match isCorrect with
  | Some true => q_points q
  | _ => 0
  end.

Definition grade (q : Question) (answer : JsAnswer) (slot : AnswerSlot) : AnswerSlot :=
  if isAutoGraded (q_type q) then
    let isCorrect :=
      match q_type q with
      | MultipleChoice => Some (gradeMultipleChoice q answer)
      | _ => gradeSingleChoice q answer
      end in
    {| ans_question := ans_question slot; ans_answer := ans_answer slot;
       ans_isCorrect := isCorrect; ans_points := awarded isCorrect q;
       ans_timeSpent := ans_timeSpent slot |}
  else slot.

(** [attempt.answers.findIndex(a => a.question.toString() === questionId)] *)
Fixpoint findIndex (questionId : string) (l : list AnswerSlot) : option nat :=
  match l with
  | [] => None
  | a :: l' =>
    if String.eqb (ans_question a) questionId then Some O
    else option_map S (findIndex questionId l')
  end.

Definition timeLimit (attempt : Attempt) (assessment : Assessment) : Z :=
  at_startTime attempt + a_duration assessment * 60000.

Definition timeOut (attempt : Attempt) (limit : Z) : Attempt :=
  {| at_assessment := at_assessment attempt; at_user := at_user attempt;
     at_startTime := at_startTime attempt;
     at_endTime := Some limit;
     at_completionTime := Some (Qmake (limit - at_startTime attempt) 1000);
     at_answers := at_answers attempt;
     at_totalScore := at_totalScore attempt;
     at_maxPossibleScore := at_maxPossibleScore attempt;
     at_status := TimedOut;
     at_proctorEvents := at_proctorEvents attempt |}.

Definition set_answers (l : list AnswerSlot) (attempt : Attempt) : Attempt :=
  {| at_assessment := at_assessment attempt; at_user := at_user attempt;
     at_startTime := at_startTime attempt;
     at_endTime := at_endTime attempt;
     at_completionTime := at_completionTime attempt;
     at_answers := l;
     at_totalScore := at_totalScore attempt;
     at_maxPossibleScore := at_maxPossibleScore attempt;
     at_status := at_status attempt;
     at_proctorEvents := at_proctorEvents attempt |}.

Definition recordAnswer (answer : JsAnswer) (spent : Z) (slot : AnswerSlot) : AnswerSlot :=
  {| ans_question := ans_question slot; ans_answer := answer;
     ans_isCorrect := ans_isCorrect slot; ans_points := ans_points slot;
     ans_timeSpent := Some spent |}.

Definition submitAnswer (now : Z) (u : User) (id questionId : string)
    (answer : JsAnswer) (st : State) : State * Reply unit :=
  match attempts st !! id with
  | None => (st, Fail AttemptNotFound)
  | Some attempt =>
    if negb (String.eqb (at_user attempt) (userId u)) then (st, Fail PermissionDenied)
    else if negb (is_in_progress (at_status attempt)) then (st, Fail AttemptAlreadyCompleted)
    else
      match assessments st !! at_assessment attempt with
      | None => (st, Fail ServerError)
      | Some assessment =>
        let limit := timeLimit attempt assessment in
        if limit <? now then
          (set_attempts (insert id (timeOut attempt limit)) st, Fail TimeLimitExceeded)
        else
          match findIndex questionId (at_answers attempt) with
          | None => (st, Fail QuestionNotInAttempt)
          | Some answerIndex =>
            match questions st !! questionId, at_answers attempt !! answerIndex with
            | Some question, Some slot =>
              let slot' :=
                grade question answer
                  (recordAnswer answer ((now - at_startTime attempt) / 1000) slot) in
              (set_attempts
                 (insert id (set_answers (<[answerIndex := slot']> (at_answers attempt)) attempt))
                 st,
               Ok tt)
            | _, _ => (st, Fail ServerError)
            end
          end
      end
  end.

(** *** POST /api/attempts/:id/submit *)

Record Result := {
  r_totalScore : Z;
  r_maxPossibleScore : Z;
  r_percentage : JsNumber;
  r_passed : bool;
  r_completionTime : Q
}.

(** [attempt.answers.reduce((total, answer) => total + (answer.points || 0), 0)] *)
Definition sumPoints (l : list AnswerSlot) : Z :=
  fold_left (fun total answer => total + ans_points answer) l 0.

Definition complete (now : Z) (attempt : Attempt) : Attempt :=
  {| at_assessment := at_assessment attempt; at_user := at_user attempt;
     at_startTime := at_startTime attempt;
     at_endTime := Some now;
     at_completionTime := Some (Qmake (now - at_startTime attempt) 1000);
     at_answers := at_answers attempt;
     at_totalScore := sumPoints (at_answers attempt);
     at_maxPossibleScore := at_maxPossibleScore attempt;
     at_status := Completed;
     at_proctorEvents := at_proctorEvents attempt |}.

Definition percentage (totalScore maxPossibleScore : Z) : JsNumber :=
  js_times (js_div totalScore maxPossibleScore) 100.

Definition finishAttempt (now : Z) (u : User) (id : string) (st : State)
    : State * Reply Result :=
  match attempts st !! id with
  | None => (st, Fail AttemptNotFound)
  | Some attempt =>
    if negb (String.eqb (at_user attempt) (userId u)) then (st, Fail PermissionDenied)
    else if negb (is_in_progress (at_status attempt)) then (st, Fail AttemptAlreadyCompleted)
    else
      let attempt' := complete now attempt in
      let st' := set_redis (delete (cacheKey id))
                   (set_attempts (insert id attempt') st) in
      match assessments st !! at_assessment attempt with
      | None => (st', Fail ServerError)
      | Some assessment =>
        (st',
         Ok {| r_totalScore := at_totalScore attempt';
               r_maxPossibleScore := at_maxPossibleScore attempt';
               r_percentage := percentage (at_totalScore attempt')
                                 (at_maxPossibleScore attempt');
               r_passed := a_passingScore assessment <=? at_totalScore attempt';
               r_completionTime := Qmake (now - at_startTime attempt) 1000 |})
      end
  end.

(** *** GET /api/attempts/:id/results *)

Record ResultsReply := {
  rr_attempt : Attempt;
  rr_passed : bool;
  rr_percentage : JsNumber
}.

Definition getResults (u : User) (id : string) (st : State) : Reply ResultsReply :=
  match attempts st !! id with
  | None => Fail AttemptNotFound
  | Some attempt =>
    match assessments st !! at_assessment attempt with
    | None => Fail ServerError
    | Some assessment =>
      if String.eqb (at_user attempt) (userId u)
         || String.eqb (a_createdBy assessment) (userId u)
         || String.eqb (role u) "admin"
      then Ok {| rr_attempt := attempt;
                 rr_passed := a_passingScore assessment <=? at_totalScore attempt;
                 rr_percentage := percentage (at_totalScore attempt)
                                    (at_maxPossibleScore attempt) |}
      else Fail PermissionDenied
    end
  end.

(** *** POST /api/attempts/:id/proctoring *)

Definition push_event (e : AttemptEvent) (attempt : Attempt) : Attempt :=
  {| at_assessment := at_assessment attempt; at_user := at_user attempt;
     at_startTime := at_startTime attempt;
     at_endTime := at_endTime attempt;
     at_completionTime := at_completionTime attempt;
     at_answers := at_answers attempt;
     at_totalScore := at_totalScore attempt;
     at_maxPossibleScore := at_maxPossibleScore attempt;
     at_status := at_status attempt;
     at_proctorEvents := at_proctorEvents attempt ++ [e] |}.

Definition eventTypes : list string :=
  ["tab-switch"; "full-screen-exit"; "face-not-detected"; "multiple-faces";
   "audio-detected"; "suspicious-activity"].

(** The [type] of an embedded event is checked against the enum of the
    schema when the attempt is saved; a missing [type] is accepted. *)
Definition validEventType (type : option string) : bool :=
  match type with
  | Some t => existsb (String.eqb t) eventTypes
  | None => true
  end.

Definition recordProctoring (now : Z) (u : User) (id : string)
    (type : option string) (details : string) (st : State) : State * Reply unit :=
  match attempts st !! id with
  | None => (st, Fail AttemptNotFound)
  | Some attempt =>
    if negb (String.eqb (at_user attempt) (userId u)) then (st, Fail PermissionDenied)
    else if negb (validEventType type) then (st, Fail ServerError)
    else
      let e := {| ev_type := type; ev_timestamp := now;
                  ev_details := details |} in
      (set_attempts (insert id (push_event e attempt)) st, Ok tt)
  end.

(** *** POST /api/assessments *)

(** A string that is present and not empty: what [if (x)] tests, and what
    the validator of a required string accepts. *)
Definition truthyString (s : option string) : option string :=
  match s with
  | Some "" => None
  | _ => s
  end.

(** [if (x)] for a number of the body. *)
Definition truthyNumber (n : option Z) : option Z :=
  match n with
  | Some 0 => None
  | _ => n
  end.


Record AssessmentBody := {
  b_title : option string;
  b_duration : option Z;
  b_passingScore : option Z;
  b_questions : option (list AssessmentQuestion);
  b_randomizeQuestions : option bool;
  b_allowedAttempts : option Z;
  b_startTime : option Z;
  b_endTime : option Z;
  b_organization : option string;
  b_status : option string
}.

(** [q.points || 0] *)
Definition pointsOrZero (q : AssessmentQuestion) : Z := default 0 (aq_points q).

(** The loop [for (const q of questions) totalPoints += q.points || 0],
    skipped when [questions] is missing or empty.  The body is the typed
    one of this model: the points of an entry are a number, an integer.
    The sum is the one of [+=] as long as it stays within the integers
    that a double holds exactly (below 2^53 in absolute value); beyond
    them the addition of the code rounds, and this sum does not. *)
Definition totalPointsOf (questions : option (list AssessmentQuestion)) : Z :=
  match questions with
  | Some qs => fold_left (fun total q => total + pointsOrZero q) qs 0
  | None => 0
  end.

(** The enum of [status], with the schema default [draft]. *)
Definition parseStatus (s : option string) : option AssessmentStatus :=
  match s with
  | None => Some Draft
  | Some s =>
    if String.eqb s "draft" then Some Draft
    else if String.eqb s "published" then Some Published
    else if String.eqb s "archived" then Some Archived
    else None
  end.

Definition createAssessment (newId : string) (u : User) (body : AssessmentBody)
    (st : State) : State * Reply (string * Assessment) :=
  if negb (isStaff u) then (st, Fail PermissionDenied)
  else
    match truthyString (b_title body), b_duration body,
          parseStatus (b_status body), assessments st !! newId with
    | Some title, Some duration, Some status, None =>
      let assessment :=
        {| a_title := title; a_duration := duration;
           a_totalPoints := totalPointsOf (b_questions body);
           a_passingScore := default 0 (b_passingScore body);
           a_questions := default [] (b_questions body);
           a_randomizeQuestions := default false (b_randomizeQuestions body);
           a_allowedAttempts := default 1 (b_allowedAttempts body);
           a_startTime := b_startTime body; a_endTime := b_endTime body;
           a_createdBy := userId u; a_organization := b_organization body;
           a_status := status |} in
      (set_assessments (insert newId assessment) st, Ok (newId, assessment))
    | _, _, _, _ => (st, Fail ServerError)
    end.

(** *** GET /api/assessments/:id *)

(** [x && x.toString() === req.user.organization] *)
Definition sameOrganization (x : option string) (u : User) : bool :=
  match x, organization u with
  | Some o, Some o' => String.eqb o o'
  | _, _ => false
  end.

Definition getAssessment (u : User) (id : string) (st : State) : Reply Assessment :=
  match assessments st !! id with
  | None => Fail AssessmentNotFound
  | Some assessment =>
    if String.eqb (role u) "admin"
       || String.eqb (a_createdBy assessment) (userId u)
       || sameOrganization (a_organization assessment) u
       || is_published (a_status assessment)
    then Ok assessment
    else Fail PermissionDenied
  end.

(** *** Question bank: POST, GET, PUT and DELETE /api/questions *)

Definition parseType (s : string) : option QuestionType :=
  if String.eqb s "multiple-choice" then Some MultipleChoice
  else if String.eqb s "single-choice" then Some SingleChoice
  else if String.eqb s "true-false" then Some TrueFalse
  else if String.eqb s "fill-in-the-blank" then Some FillInTheBlank
  else if String.eqb s "essay" then Some Essay
  else if String.eqb s "coding" then Some Coding
  else None.

Record QuestionBody := {
  b_type : option string;
  b_options : option (list QOption);
  b_points : option Z;
  b_qorganization : option string
}.

Definition createQuestion (newId : string) (u : User) (body : QuestionBody)
    (st : State) : State * Reply (string * Question) :=
  if negb (isStaff u) then (st, Fail PermissionDenied)
  else
    match b_type body ≫= parseType, questions st !! newId with
    | Some type, None =>
      let question :=
        {| q_type := type; q_options := default [] (b_options body);
           q_points := default 1 (b_points body);
           q_createdBy := userId u;
           q_organization := b_qorganization body |} in
      (set_questions (insert newId question) st, Ok (newId, question))
    | _, _ => (st, Fail ServerError)
    end.

Definition getQuestion (u : User) (id : string) (st : State) : Reply Question :=
  match questions st !! id with
  | None => Fail QuestionNotFound
  | Some question =>
    if String.eqb (role u) "admin"
       || String.eqb (q_createdBy question) (userId u)
       || sameOrganization (q_organization question) u
    then Ok question
    else Fail PermissionDenied
  end.

Definition mayEdit (u : User) (question : Question) : bool :=
  String.eqb (role u) "admin" || String.eqb (q_createdBy question) (userId u).

Definition updateQuestion (u : User) (id : string) (body : QuestionBody)
    (st : State) : State * Reply Question :=
  match questions st !! id with
  | None => (st, Fail QuestionNotFound)
  | Some question =>
    if negb (mayEdit u question) then (st, Fail PermissionDenied)
    else
      let type :=
        match truthyString (b_type body) with
        | Some s => parseType s
        | None => Some (q_type question)
        end in
      match type with
      | None => (st, Fail ServerError)
      | Some type =>
        let question' :=
          {| q_type := type;
             q_options := default (q_options question) (b_options body);
             q_points := default (q_points question) (truthyNumber (b_points body));
             q_createdBy := q_createdBy question;
             q_organization := q_organization question |} in
        (set_questions (insert id question') st, Ok question')
      end
  end.

Definition deleteQuestion (u : User) (id : string) (st : State) : State * Reply unit :=
  match questions st !! id with
  | None => (st, Fail QuestionNotFound)
  | Some question =>
    if negb (mayEdit u question) then (st, Fail PermissionDenied)
    else (set_questions (delete id) st, Ok tt)
  end.

(** *** Runs of the service *)

(** The requests that change the state. *)
Inductive Request :=
| CreateQuestion (newId : string) (u : User) (body : QuestionBody)
| UpdateQuestion (u : User) (id : string) (body : QuestionBody)
| DeleteQuestion (u : User) (id : string)
| CreateAssessment (newId : string) (u : User) (body : AssessmentBody)
| StartAttempt (now : Z) (newId : string) (coins : list bool) (u : User) (id : string)
| SubmitAnswer (now : Z) (u : User) (id questionId : string) (answer : JsAnswer)
| FinishAttempt (now : Z) (u : User) (id : string)
| RecordProctoring (now : Z) (u : User) (id : string) (type : option string)
    (details : string).

Definition handle (r : Request) (st : State) : State :=
  match r with
  | CreateQuestion newId u body => (createQuestion newId u body st).1
  | UpdateQuestion u id body => (updateQuestion u id body st).1
  | DeleteQuestion u id => (deleteQuestion u id st).1
  | CreateAssessment newId u body => (createAssessment newId u body st).1
  | StartAttempt now newId coins u id => (startAttempt now newId coins u id st).1
  | SubmitAnswer now u id questionId answer =>
    (submitAnswer now u id questionId answer st).1
  | FinishAttempt now u id => (finishAttempt now u id st).1
  | RecordProctoring now u id type details =>
    (recordProctoring now u id type details st).1
  end.

Definition run (rs : list Request) (st : State) : State :=
  fold_left (fun st r => handle r st) rs st.

Definition empty : State :=
  {| questions := ∅; assessments := ∅; attempts := ∅; redis := ∅ |}.

(** The state that an accepted answer leaves. *)
Definition answeredState (now : Z) (id : string) (answer : JsAnswer) (st : State)
    (t : Attempt) (i : nat) (slot : AnswerSlot) (q : Question) : State :=
  set_attempts
    (insert id
       (set_answers
          (<[i := grade q answer
                    (recordAnswer answer ((now - at_startTime t) / 1000) slot)]>
             (at_answers t)) t)) st.

(** What a request never changes in an attempt, and what it leaves alone
    once the attempt is no longer in progress. *)
Definition sameIdentity (t t' : Attempt) : Prop :=
  at_assessment t' = at_assessment t ∧ at_user t' = at_user t
  ∧ at_startTime t' = at_startTime t
  ∧ at_maxPossibleScore t' = at_maxPossibleScore t.

Definition sameOutcome (t t' : Attempt) : Prop :=
  at_status t' = at_status t ∧ at_endTime t' = at_endTime t
  ∧ at_completionTime t' = at_completionTime t
  ∧ at_totalScore t' = at_totalScore t ∧ at_answers t' = at_answers t.

End AssessmentService.

(** ** The proctor service *)

Module ProctorService.

(** *** Documents *)

Inductive SessionStatus := Active | Completed | Terminated.

Record Device := {
  required : bool;
  enabled : bool
}.

Record Settings := {
  webcam : Device;
  screenSharing : Device;
  audio : Device;
  fullScreenRequired : bool;
  browserLockdown : bool
}.

(** The [settings] object of a request body: every field may be missing. *)
Record DeviceBody := {
  b_required : option bool;
  b_enabled : option bool
}.

Record SettingsBody := {
  b_webcam : DeviceBody;
  b_screenSharing : DeviceBody;
  b_audio : DeviceBody;
  b_fullScreenRequired : option bool;
  b_browserLockdown : option bool
}.

Record Snapshot := {
  image : option string;
  screenCapture : option string
}.

Record ProctorEvent := {
  e_attemptId : string;
  e_userId : string;
  e_assessmentId : string;
  e_type : string;
  e_timestamp : Z;
  e_details : string;
  e_severity : string;
  e_snapshot : option Snapshot
}.

(** [s_anomalyScore] is a JavaScript number: an IEEE 754 double. *)
Record ProctorSession := {
  s_attemptId : string;
  s_userId : string;
  s_assessmentId : string;
  s_startTime : Z;
  s_endTime : option Z;
  s_status : SessionStatus;
  s_settings : Settings;
  s_events : list ProctorEvent;
  s_anomalyScore : float
}.

(** A message sent to Kafka: topic, key, action and the id it reports. *)
Record KafkaMessage := {
  k_topic : string;
  k_key : string;
  k_action : string;
  k_id : string
}.

Record State := {
  sessions : gmap string ProctorSession;
  events : gmap string ProctorEvent;
  kafka : list KafkaMessage
}.

(** *** Replies *)

Inductive Error :=
| SessionAlreadyActive
| SessionNotFound
| PermissionDenied
| SessionNotActive
| ActiveSessionNotFound
| ServerError.

Definition http_status (e : Error) : Z :=
  match e with
  | SessionAlreadyActive | SessionNotActive => 400
  | SessionNotFound | ActiveSessionNotFound => 404
  | PermissionDenied => 403
  | ServerError => 500
  end.

Definition message (e : Error) : string :=
  match e with
  | SessionAlreadyActive => "Active session already exists"
  | SessionNotFound => "Session not found"
  | PermissionDenied => "Permission denied"
  | SessionNotActive => "Session is not active"
  | ActiveSessionNotFound => "Active session not found"
  | ServerError => "Server error"
  end.

Abbreviation Reply := (Http.Reply Error).

(** *** Schema defaults and validators *)

Definition deviceDefaults (requiredDefault : bool) (b : DeviceBody) : Device :=
  {| required := default requiredDefault (b_required b);
     enabled := default false (b_enabled b) |}.

Definition noDevice : DeviceBody := {| b_required := None; b_enabled := None |}.

Definition noSettings : SettingsBody :=
  {| b_webcam := noDevice; b_screenSharing := noDevice; b_audio := noDevice;
     b_fullScreenRequired := None; b_browserLockdown := None |}.

Definition settingsDefaults (b : option SettingsBody) : Settings :=
  let b := default noSettings b in
  {| webcam := deviceDefaults true (b_webcam b);
     screenSharing := deviceDefaults false (b_screenSharing b);
     audio := deviceDefaults false (b_audio b);
     fullScreenRequired := default true (b_fullScreenRequired b);
     browserLockdown := default false (b_browserLockdown b) |}.

Definition eventTypes : list string :=
  ["tab-switch"; "full-screen-exit"; "face-not-detected"; "multiple-faces";
   "audio-detected"; "suspicious-activity"].

Definition severities : list string := ["low"; "medium"; "high"].

Definition oneOf (l : list string) (s : string) : bool := existsb (String.eqb s) l.

Definition is_active (s : SessionStatus) : bool :=
  match s with Active => true | _ => false end.

(** *** POST /api/proctor/sessions *)

Definition matchesActive (attemptId uid : string) (s : ProctorSession) : bool :=
  String.eqb (s_attemptId s) attemptId && String.eqb (s_userId s) uid
  && is_active (s_status s).

(** [ProctorSession.findOne({ attemptId, userId, status: 'active' })] *)
Definition findOneActive (attemptId uid : string) (m : gmap string ProctorSession)
    : option (string * ProctorSession) :=
  List.find (fun kv => matchesActive attemptId uid kv.2) (map_to_list m).

Record SessionReply := {
  sr_sessionId : string;
  sr_settings : Settings
}.

Definition startSession (now : Z) (newId : string) (u : User)
    (attemptId assessmentId : string) (settings : option SettingsBody)
    (st : State) : State * Reply SessionReply :=
  match findOneActive attemptId (userId u) (sessions st) with
  | Some _ => (st, Fail SessionAlreadyActive)
  | None =>
    let session :=
      {| s_attemptId := attemptId; s_userId := userId u;
         s_assessmentId := assessmentId; s_startTime := now; s_endTime := None;
         s_status := Active; s_settings := settingsDefaults settings;
         s_events := []; s_anomalyScore := 0%float |} in
    match sessions st !! newId with
    | Some _ => (st, Fail ServerError)
    | None =>
      ({| sessions := <[newId := session]> (sessions st);
          events := events st;
          kafka := kafka st ++
            [{| k_topic := "proctor-sessions"; k_key := attemptId;
                k_action := "session_started"; k_id := newId |}] |},
       Ok {| sr_sessionId := newId; sr_settings := s_settings session |})
    end
  end.

(** *** POST /api/proctor/sessions/:id/end *)

Definition endedSession (now : Z) (s : ProctorSession) : ProctorSession :=
  {| s_attemptId := s_attemptId s; s_userId := s_userId s;
     s_assessmentId := s_assessmentId s; s_startTime := s_startTime s;
     s_endTime := Some now; s_status := Completed;
     s_settings := s_settings s; s_events := s_events s;
     s_anomalyScore := s_anomalyScore s |}.

Definition endSession (now : Z) (u : User) (id : string) (st : State)
    : State * Reply string :=
  match sessions st !! id with
  | None => (st, Fail SessionNotFound)
  | Some session =>
    if negb (String.eqb (s_userId session) (userId u)) then (st, Fail PermissionDenied)
    else if negb (is_active (s_status session)) then (st, Fail SessionNotActive)
    else
      ({| sessions := <[id := endedSession now session]> (sessions st);
          events := events st;
          kafka := kafka st ++
            [{| k_topic := "proctor-sessions"; k_key := s_attemptId session;
                k_action := "session_ended"; k_id := id |}] |},
       Ok id)
  end.

(** *** POST /api/proctor/events *)

(** The [switch (severity)] of the handler; any other value leaves 0. *)
#[warnings="-inexact-float"]
Definition severityValue (severity : string) : float :=
  if String.eqb severity "low" then 0.2%float
  else if String.eqb severity "medium" then 0.5%float
  else if String.eqb severity "high" then 1.0%float
  else 0%float.

Definition withEvent (event : ProctorEvent) (s : ProctorSession) : ProctorSession :=
  {| s_attemptId := s_attemptId s; s_userId := s_userId s;
     s_assessmentId := s_assessmentId s; s_startTime := s_startTime s;
     s_endTime := s_endTime s; s_status := s_status s;
     s_settings := s_settings s; s_events := s_events s ++ [event];
     s_anomalyScore := (s_anomalyScore s + severityValue (e_severity event))%float |}.

Record EventBody := {
  b_sessionId : string;
  b_type : option string;
  b_details : string;
  b_severity : option string;
  b_snapshot : option Snapshot
}.

Definition recordEvent (now : Z) (newId : string) (u : User) (body : EventBody)
    (st : State) : State * Reply string :=
  let severity := default "medium" (b_severity body) in
  match sessions st !! b_sessionId body with
  | None => (st, Fail SessionNotFound)
  | Some session =>
    if negb (String.eqb (s_userId session) (userId u)) then (st, Fail PermissionDenied)
    else if negb (is_active (s_status session)) then (st, Fail SessionNotActive)
    else
      match b_type body, events st !! newId with
      | Some type, None =>
        if oneOf eventTypes type && oneOf severities severity then
          let event :=
            {| e_attemptId := s_attemptId session; e_userId := userId u;
               e_assessmentId := s_assessmentId session; e_type := type;
               e_timestamp := now; e_details := b_details body;
               e_severity := severity; e_snapshot := b_snapshot body |} in
          ({| sessions := <[b_sessionId body := withEvent event session]> (sessions st);
              events := <[newId := event]> (events st);
              kafka := kafka st ++
                [{| k_topic := "proctor-events"; k_key := s_attemptId session;
                    k_action := "event_recorded"; k_id := newId |}] |},
           Ok newId)
        else (st, Fail ServerError)
      | _, _ => (st, Fail ServerError)
      end
  end.

(** *** GET /api/proctor/sessions/:id/events *)

Record EventsReply := {
  er_sessionId : string;
  er_attemptId : string;
  er_startTime : Z;
  er_endTime : option Z;
  er_status : SessionStatus;
  er_anomalyScore : float;
  er_events : list ProctorEvent
}.

Definition getSessionEvents (u : User) (id : string) (st : State) : Reply EventsReply :=
  match sessions st !! id with
  | None => Fail SessionNotFound
  | Some session =>
    if String.eqb (s_userId session) (userId u) || isStaff u then
      Ok {| er_sessionId := id; er_attemptId := s_attemptId session;
            er_startTime := s_startTime session; er_endTime := s_endTime session;
            er_status := s_status session;
            er_anomalyScore := s_anomalyScore session;
            er_events := s_events session |}
    else Fail PermissionDenied
  end.

(** *** POST /api/proctor/signal *)

Record SignalReply := {
  sg_fromUserId : string;
  sg_sessionId : string;
  sg_signal : string;
  sg_timestamp : Z
}.

Definition signal (now : Z) (u : User) (sessionId sig : string) (st : State)
    : Reply SignalReply :=
  match sessions st !! sessionId with
  | Some session =>
    if is_active (s_status session) then
      Ok {| sg_fromUserId := userId u; sg_sessionId := sessionId;
            sg_signal := sig; sg_timestamp := now |}
    else Fail ActiveSessionNotFound
  | None => Fail ActiveSessionNotFound
  end.

(** *** GET /api/proctor/lockdown/:sessionId *)

Record LockdownConfig := {
  lc_fullScreenRequired : bool;
  lc_browserLockdown : bool;
  lc_allowedDomains : list string;
  lc_blockedKeys : list string;
  lc_preventCopyPaste : bool;
  lc_preventTabSwitching : bool
}.

Definition lockdown (u : User) (sessionId : string) (st : State) : Reply LockdownConfig :=
  match sessions st !! sessionId with
  | None => Fail SessionNotFound
  | Some session =>
    if negb (String.eqb (s_userId session) (userId u)) then Fail PermissionDenied
    else
      Ok {| lc_fullScreenRequired := fullScreenRequired (s_settings session);
            lc_browserLockdown := browserLockdown (s_settings session);
            lc_allowedDomains := ["assessment.domain.com"; "proctor.domain.com"];
            lc_blockedKeys := ["PrintScreen"; "ContextMenu"];
            lc_preventCopyPaste := true;
            lc_preventTabSwitching := true |}
  end.

(** *** Runs of the service *)

(** The requests that change the state. *)
Inductive Request :=
| StartSession (now : Z) (newId : string) (u : User)
    (attemptId assessmentId : string) (settings : option SettingsBody)
| EndSession (now : Z) (u : User) (id : string)
| RecordEvent (now : Z) (newId : string) (u : User) (body : EventBody).

Definition handle (r : Request) (st : State) : State :=
  match r with
  | StartSession now newId u attemptId assessmentId settings =>
    (startSession now newId u attemptId assessmentId settings st).1
  | EndSession now u id => (endSession now u id st).1
  | RecordEvent now newId u body => (recordEvent now newId u body st).1
  end.

Definition run (rs : list Request) (st : State) : State :=
  fold_left (fun st r => handle r st) rs st.

Definition empty : State := {| sessions := ∅; events := ∅; kafka := [] |}.

(** The score after the events [evs], added one after the other. *)
Definition accumulate (score : float) (evs : list ProctorEvent) : float :=
  fold_left (fun acc e => (acc + severityValue (e_severity e))%float) evs score.

(** The weights as the decimal fractions they are written as. *)
Definition exactWeight (severity : string) : Q :=
  if String.eqb severity "low" then (2 # 10)%Q
  else if String.eqb severity "medium" then (5 # 10)%Q
  else if String.eqb severity "high" then 1%Q
  else 0%Q.

(** At most one active session for each attempt and user. *)
Definition uniqueActive (st : State) : Prop :=
  ∀ i j si sj,
    sessions st !! i = Some si → sessions st !! j = Some sj →
    s_status si = Active → s_status sj = Active →
    s_attemptId si = s_attemptId sj → s_userId si = s_userId sj →
    i = j.

End ProctorService.

(** ** IEEE 754 numbers

    JavaScript numbers are binary64 floating-point numbers; their
    operations are specified by [SpecFloat] at precision 53. *)

Module Binary.

(** By how many bits [shr_fexp] shifts a mantissa [m] of exponent [e]. *)
Definition shift_of (prec emax m e : Z) : Z :=
  Z.max 0 (SpecFloat.fexp prec emax (Zdigits2 m + e) - e).

(** Neither a NaN nor negative. *)
Definition nonneg (x : spec_float) : bool :=
  match x with
  | S754_zero _ => true
  | S754_infinity s | S754_finite s _ _ => negb s
  | S754_nan => false
  end.

(** The rational that a finite number stands for. *)
Definition exactValue (x : float) : option Q :=
  match Prim2SF x with
  | S754_zero _ => Some 0%Q
  | S754_finite s m e =>
    let v := match e with
             | Z0 => inject_Z (Zpos m)
             | Zpos p => inject_Z (Zpos m * 2 ^ Zpos p)
             | Zneg p => Qmake (Zpos m) (2 ^ p)
             end in
    Some (if s then Qopp v else v)
  | _ => None
  end.

End Binary.

(** ** Well-formed states of the assessment service *)

Module AssessmentInvariants.

Import AssessmentService.

(** A slot carries points only when it was graded correct, and the time
    spent on it is within the time budget (in seconds). *)
Definition slotOk (budget : Z) (s : AnswerSlot) : Prop :=
  (ans_isCorrect s ≠ Some true → ans_points s = 0)
  ∧ (∀ n, ans_timeSpent s = Some n → n ≤ budget).

(** The end of an attempt, by status. *)
Definition outcomeOk (a : Assessment) (t : Attempt) : Prop :=
  match at_status t with
  | InProgress =>
    at_endTime t = None ∧ at_completionTime t = None ∧ at_totalScore t = 0
  | Completed =>
    ∃ e, at_endTime t = Some e
         ∧ at_completionTime t = Some (Qmake (e - at_startTime t) 1000)
         ∧ at_totalScore t = sumPoints (at_answers t)
  | TimedOut =>
    at_endTime t = Some (at_startTime t + a_duration a * 60000)
    ∧ at_completionTime t = Some (Qmake (a_duration a * 60000) 1000)
    ∧ at_totalScore t = 0
  | Abandoned => False
  end.

Definition attemptOk (st : State) (t : Attempt) : Prop :=
  ∃ a, assessments st !! at_assessment t = Some a
       ∧ at_maxPossibleScore t = a_totalPoints a
       ∧ map ans_question (at_answers t) ≡ₚ map aq_question (a_questions a)
       ∧ Forall (slotOk (a_duration a * 60)) (at_answers t)
       ∧ outcomeOk a t.

Definition wellFormed (st : State) : Prop :=
  ∀ id t, attempts st !! id = Some t → attemptOk st t.

End AssessmentInvariants.


(** ** Well-formed states of the proctor service *)

Module ProctorInvariants.

Import ProctorService.

(** An event of a session: it repeats the attempt, user and assessment
    of the session, its type and severity are of the schema, and it is
    stored in the collection of events. *)
Definition eventOk (st : State) (s : ProctorSession) (e : ProctorEvent) : Prop :=
  e_attemptId e = s_attemptId s ∧ e_userId e = s_userId s
  ∧ e_assessmentId e = s_assessmentId s
  ∧ e_severity e ∈ severities ∧ e_type e ∈ eventTypes
  ∧ ∃ id, events st !! id = Some e.

Definition sessionOk (st : State) (s : ProctorSession) : Prop :=
  s_anomalyScore s = accumulate 0 (s_events s)
  ∧ s_status s ≠ Terminated
  ∧ (s_status s = Active ↔ s_endTime s = None)
  ∧ Forall (eventOk st s) (s_events s).

Definition wellFormed (st : State) : Prop :=
  ∀ id s, sessions st !! id = Some s → sessionOk st s.

End ProctorInvariants.


(** ** Sample data *)

Module Samples.

Import AssessmentService.

Definition teacher : User :=
  {| userId := "t1"; role := "instructor"; organization := None |}.

Definition alice : User :=
  {| userId := "u1"; role := "student"; organization := None |}.

Definition bob : User :=
  {| userId := "u2"; role := "student"; organization := None |}.

Definition opt (id : string) (correct : bool) : QOption :=
  {| opt_id := id; opt_text := id; opt_isCorrect := correct |}.

(** A single-choice question worth 10 points whose correct option is [b]. *)
Definition singleBody : QuestionBody :=
  {| b_type := Some "single-choice";
     b_options := Some [opt "a" false; opt "b" true];
     b_points := Some 10; b_qorganization := None |}.

(** A multiple-choice question whose correct options are [a] and [b]. *)
Definition multi : Question :=
  {| q_type := MultipleChoice;
     q_options := [opt "a" true; opt "b" true; opt "c" false];
     q_points := 4; q_createdBy := "t1"; q_organization := None |}.

(** A published assessment of 10 minutes, open from 0 to 1000000, that
    gives 5 points to question [q1]. *)
Definition quizBody : AssessmentBody :=
  {| b_title := Some "Quiz"; b_duration := Some 10; b_passingScore := Some 5;
     b_questions := Some [{| aq_question := "q1"; aq_points := Some 5 |}];
     b_randomizeQuestions := None; b_allowedAttempts := None;
     b_startTime := Some 0; b_endTime := Some 1000000;
     b_organization := None; b_status := Some "published" |}.

(** The assessment that [quizBody] creates. *)
Definition quiz : Assessment :=
  {| a_title := "Quiz"; a_duration := 10; a_totalPoints := 5;
     a_passingScore := 5;
     a_questions := [{| aq_question := "q1"; aq_points := Some 5 |}];
     a_randomizeQuestions := false; a_allowedAttempts := 1;
     a_startTime := Some 0; a_endTime := Some 1000000;
     a_createdBy := "t1"; a_organization := None; a_status := Published |}.

(** The same without questions. *)
Definition emptyBody : AssessmentBody :=
  {| b_title := Some "Empty"; b_duration := Some 10; b_passingScore := None;
     b_questions := Some [];
     b_randomizeQuestions := None; b_allowedAttempts := None;
     b_startTime := Some 0; b_endTime := Some 1000000;
     b_organization := None; b_status := Some "published" |}.

(** The teacher has created the question and the two assessments. *)
Definition authored : State :=
  run [CreateQuestion "q1" teacher singleBody;
       CreateAssessment "a1" teacher quizBody;
       CreateAssessment "a2" teacher emptyBody] empty.

(** Alice has started the quiz at time 1000. *)
Definition started : State :=
  run [StartAttempt 1000 "at1" [] alice "a1"] authored.

(** Alice has answered [b] two seconds later. *)
Definition answered : State :=
  run [SubmitAnswer 3000 alice "at1" "q1" (AnsAtom (JStr "b"))] started.

(** Alice's attempt in that state. *)
Definition answeredAttempt : Attempt :=
  {| at_assessment := "a1"; at_user := "u1"; at_startTime := 1000;
     at_endTime := None; at_completionTime := None;
     at_answers :=
       [{| ans_question := "q1"; ans_answer := AnsAtom (JStr "b");
           ans_isCorrect := Some true; ans_points := 10;
           ans_timeSpent := Some 2 |}];
     at_totalScore := 0; at_maxPossibleScore := 5;
     at_status := InProgress; at_proctorEvents := [] |}.

(** All of it as one run, followed by a late answer of Alice, which times
    her attempt out, and by Bob's start and finish on the assessment
    without questions. *)
Definition history : list Request :=
  [CreateQuestion "q1" teacher singleBody;
   CreateAssessment "a1" teacher quizBody;
   CreateAssessment "a2" teacher emptyBody;
   StartAttempt 1000 "at1" [] alice "a1";
   SubmitAnswer 3000 alice "at1" "q1" (AnsAtom (JStr "b"));
   SubmitAnswer 700000 alice "at1" "q1" (AnsAtom (JStr "a"));
   StartAttempt 2000 "at2" [] bob "a2";
   FinishAttempt 9000 bob "at2"].

Definition timedOutAttempt : Attempt :=
  {| at_assessment := "a1"; at_user := "u1"; at_startTime := 1000;
     at_endTime := Some 601000; at_completionTime := Some (Qmake 600000 1000);
     at_answers :=
       [{| ans_question := "q1"; ans_answer := AnsAtom (JStr "b");
           ans_isCorrect := Some true; ans_points := 10;
           ans_timeSpent := Some 2 |}];
     at_totalScore := 0; at_maxPossibleScore := 5;
     at_status := TimedOut; at_proctorEvents := [] |}.

Definition finishedAttempt : Attempt :=
  {| at_assessment := "a2"; at_user := "u2"; at_startTime := 2000;
     at_endTime := Some 9000; at_completionTime := Some (Qmake 7000 1000);
     at_answers := [];
     at_totalScore := 0; at_maxPossibleScore := 0;
     at_status := Completed; at_proctorEvents := [] |}.

(** Bob has started the assessment without questions at time 2000. *)
Definition startedEmpty : State :=
  run [StartAttempt 2000 "at2" [] bob "a2"] authored.

Definition emptyAttempt : Attempt :=
  {| at_assessment := "a2"; at_user := "u2"; at_startTime := 2000;
     at_endTime := None; at_completionTime := None; at_answers := [];
     at_totalScore := 0; at_maxPossibleScore := 0;
     at_status := InProgress; at_proctorEvents := [] |}.

Definition emptyQuiz : Assessment :=
  {| a_title := "Empty"; a_duration := 10; a_totalPoints := 0;
     a_passingScore := 0; a_questions := [];
     a_randomizeQuestions := false; a_allowedAttempts := 1;
     a_startTime := Some 0; a_endTime := Some 1000000;
     a_createdBy := "t1"; a_organization := None; a_status := Published |}.

Definition lowEvent : ProctorService.EventBody :=
  {| ProctorService.b_sessionId := "s1";
     ProctorService.b_type := Some "tab-switch";
     ProctorService.b_details := "";
     ProctorService.b_severity := Some "low";
     ProctorService.b_snapshot := None |}.

(** The proctor service after Alice has started a session for her
    attempt. *)
Definition watched : ProctorService.State :=
  ProctorService.run
    [ProctorService.StartSession 1000 "s1" alice "at1" "a1" None]
    ProctorService.empty.

(** Three events of low severity have been recorded in that session. *)
Definition threeLow : ProctorService.State :=
  ProctorService.run
    [ProctorService.RecordEvent 2000 "e1" alice lowEvent;
     ProctorService.RecordEvent 3000 "e2" alice lowEvent;
     ProctorService.RecordEvent 4000 "e3" alice lowEvent]
    watched.

End Samples.


(** * Properties of the assessment service *)

Module AssessmentProofs.

Import AssessmentService.

(** ** Grading *)

Section Grading.

Lemma includes_JStr (ids : list string) (s : string) :
  includes ids (JStr s) = true ↔ s ∈ ids.
Proof.
  unfold includes. rewrite existsb_exists. split.
  - intros (y & Hy & E). apply String.eqb_eq in E. subst y.
    by apply list_elem_of_In.
  - intros H. exists s. split; [by apply list_elem_of_In | apply String.eqb_refl].
Qed.

Lemma forallb_includes (ids l : list string) :
  forallb (includes ids) (map JStr l) = true ↔ ∀ x, x ∈ l → x ∈ ids.
Proof.
  rewrite forallb_forall. split.
  - intros H x Hx. apply includes_JStr, H, in_map. by apply list_elem_of_In.
  - intros H a Ha. apply in_map_iff in Ha as (x & <- & Hx).
    apply includes_JStr, H. by apply list_elem_of_In.
Qed.

Lemma list_to_set_eq_elem (l k : list string) :
  list_to_set (C := gset string) l = list_to_set k ↔ ∀ x, x ∈ l ↔ x ∈ k.
Proof.
  split.
  - intros E x. rewrite <- !(elem_of_list_to_set (C := gset string)). by rewrite E.
  - intros H. apply set_eq. intros x. rewrite !elem_of_list_to_set. apply H.
Qed.

(** What the length test and the inclusion test decide, for any answer
    array of strings. *)
Lemma gradeMultipleChoice_spec (q : Question) (l : list string) :
  gradeMultipleChoice q (AnsArray (map JStr l)) = true ↔
  length l = length (correctOptionIds q) ∧ ∀ x, x ∈ l → x ∈ correctOptionIds q.
Proof.
  unfold gradeMultipleChoice. rewrite andb_true_iff, length_map.
  by rewrite Nat.eqb_eq, forallb_includes.
Qed.

End Grading.

(** ** Scores *)

Section Scores.

(** C1, on the code: the quiz gives question [q1] 5 points, so an attempt
    has [maxPossibleScore] 5; the question itself carries 10 points in the
    question bank, and grading awards those.  Alice answers correctly and
    finishes with a total score of 10, above the maximum of 5. *)
Theorem C1_total_score_above_max :
  ∃ st r, finishAttempt 5000 Samples.alice "at1" Samples.answered = (st, Ok r)
          ∧ r_totalScore r = 10 ∧ r_maxPossibleScore r = 5
          ∧ ¬ (r_totalScore r ≤ r_maxPossibleScore r).
Proof.
  eexists _, _. split; [vm_compute; reflexivity |].
  cbn. repeat split; lia.
Qed.

End Scores.

(** ** Multiple choice *)

Section MultipleChoice.




(** The other half of the same: [a, a] is graded correct against the
    correct ids {a, b}. *)
Lemma gradeMultipleChoice_repeated_id :
  gradeMultipleChoice Samples.multi (AnsArray [JStr "a"; JStr "a"]) = true
  ∧ list_to_set (C := gset string) ["a"; "a"]
    ≠ list_to_set (correctOptionIds Samples.multi).
Proof.
  split; [reflexivity |].
  intros E. pose proof (proj1 (list_to_set_eq_elem _ _) E) as E'.
  assert ("b" ∈ ["a"; "a"]) as Hb.
  { apply E'. cbn. rewrite !elem_of_cons. tauto. }
  rewrite !elem_of_cons, elem_of_nil in Hb. by destruct Hb as [? | [? | ?]].
Qed.

End MultipleChoice.

(** ** How a request changes the attempts *)

Section Frame.

Implicit Types (st : State) (r : Request) (t : Attempt).

(** A request leaves the attempts as they are, adds one under a new id,
    or rewrites one in place. *)
Lemma handle_attempts_shape r st :
  attempts (handle r st) = attempts st
  ∨ (∃ k t, attempts st !! k = None
            ∧ attempts (handle r st) = <[k := t]> (attempts st))
  ∨ (∃ k t t', attempts st !! k = Some t
               ∧ attempts (handle r st) = <[k := t']> (attempts st)
               ∧ sameIdentity t t'
               ∧ (at_status t = InProgress ∨ sameOutcome t t')).
Proof.
  destruct r; simpl.
  - unfold createQuestion. repeat case_match; by left.
  - unfold updateQuestion. repeat case_match; by left.
  - unfold deleteQuestion. repeat case_match; by left.
  - unfold createAssessment. repeat case_match; by left.
  - unfold startAttempt. repeat case_match; simpl; try by left.
    all: right; left; eexists _, _; split; [eassumption | reflexivity].
  - unfold submitAnswer.
    destruct (attempts st !! id) as [t |] eqn:Ht; [| by left].
    destruct (negb _); [by left |].
    destruct (negb (is_in_progress _)) eqn:Hs; [by left |].
    assert (at_status t = InProgress) as Hp.
    { destruct (at_status t); simpl in Hs; congruence. }
    repeat case_match; simpl; try by left.
    all: right; right; exists id, t; eexists; repeat split; eauto.
  - unfold finishAttempt.
    destruct (attempts st !! id) as [t |] eqn:Ht; [| by left].
    destruct (negb _); [by left |].
    destruct (negb (is_in_progress _)) eqn:Hs; [by left |].
    assert (at_status t = InProgress) as Hp.
    { destruct (at_status t); simpl in Hs; congruence. }
    repeat case_match; simpl.
    all: right; right; exists id, t; eexists; repeat split; eauto.
  - unfold recordProctoring.
    destruct (attempts st !! id) as [t |] eqn:Ht; [| by left].
    repeat case_match; simpl; try by left.
    right; right. exists id, t. eexists. repeat split; eauto.
    right. by repeat split.
Qed.

(** Every attempt stays in the store under its id, for its user and its
    assessment, with its start time and its maximum score; once it has
    left [InProgress], its status, end time, score and answers stay. *)
Lemma handle_attempt_kept r st id t :
  attempts st !! id = Some t →
  ∃ t', attempts (handle r st) !! id = Some t' ∧ sameIdentity t t'
        ∧ (at_status t ≠ InProgress → sameOutcome t t').
Proof.
  intros Ht.
  destruct (handle_attempts_shape r st)
    as [E | [(k & t0 & Hk & E) | (k & t0 & t' & Hk & E & Hid & Hout)]];
    rewrite E.
  - exists t. by repeat split.
  - exists t. rewrite lookup_insert_ne by congruence. by repeat split.
  - destruct (decide (k = id)) as [-> | Hne].
    + rewrite lookup_insert_eq. exists t'.
      assert (t0 = t) as -> by congruence.
      split; [done |]. split; [done |]. intros Hs. by destruct Hout.
    + exists t. rewrite lookup_insert_ne by done. by repeat split.
Qed.

Lemma run_attempt_kept rs st id t :
  attempts st !! id = Some t →
  ∃ t', attempts (run rs st) !! id = Some t' ∧ sameIdentity t t'
        ∧ (at_status t ≠ InProgress → sameOutcome t t').
Proof.
  revert st t. induction rs as [| r rs IH]; intros st t Ht; simpl.
  - exists t. by repeat split.
  - destruct (handle_attempt_kept r st id t Ht) as (t1 & H1 & Hid1 & Hout1).
    destruct (IH _ _ H1) as (t2 & H2 & Hid2 & Hout2).
    exists t2. split; [done |]. split.
    + destruct Hid1 as (? & ? & ? & ?), Hid2 as (? & ? & ? & ?).
      repeat split; congruence.
    + intros Hs. destruct (Hout1 Hs) as (? & ? & ? & ? & ?).
      destruct Hout2 as (? & ? & ? & ? & ?); [congruence |].
      repeat split; congruence.
Qed.

(** No request changes or removes an assessment. *)
Lemma handle_assessment_kept r st id a :
  assessments st !! id = Some a → assessments (handle r st) !! id = Some a.
Proof.
  intros Ha. destruct r; simpl.
  - unfold createQuestion. by repeat case_match.
  - unfold updateQuestion. by repeat case_match.
  - unfold deleteQuestion. by repeat case_match.
  - unfold createAssessment. repeat case_match; simpl; try done.
    rewrite lookup_insert_ne; [done | congruence].
  - unfold startAttempt. by repeat case_match.
  - unfold submitAnswer. by repeat case_match.
  - unfold finishAttempt. by repeat case_match.
  - unfold recordProctoring. by repeat case_match.
Qed.

Lemma run_assessment_kept rs st id a :
  assessments st !! id = Some a → assessments (run rs st) !! id = Some a.
Proof.
  revert st. induction rs as [| r rs IH]; intros st Ha; simpl; [done |].
  by apply IH, handle_assessment_kept.
Qed.

End Frame.

(** ** The attempt limit *)

Section AttemptLimit.

Implicit Types (st : State) (r : Request) (t : Attempt).

Lemma filter_length_Permutation {A} (f : A → bool) (l k : list A) :
  l ≡ₚ k → length (List.filter f l) = length (List.filter f k).
Proof.
  induction 1 as [| x l k _ IH | x y l | l k m _ IH1 _ IH2]; simpl.
  - done.
  - destruct (f x); simpl; congruence.
  - destruct (f x), (f y); done.
  - congruence.
Qed.

Lemma attemptCount_insert_new aid uid k t (atts : gmap string Attempt) :
  atts !! k = None →
  attemptCount aid uid (<[k := t]> atts)
  = attemptCount aid uid atts + (if counted aid uid t then 1 else 0).
Proof.
  intros Hk. unfold attemptCount.
  rewrite (filter_length_Permutation _ _ _ (map_to_list_insert atts k t Hk)).
  simpl. destruct (counted aid uid t); simpl; lia.
Qed.

Lemma attemptCount_insert_same aid uid k t t' (atts : gmap string Attempt) :
  atts !! k = Some t → sameIdentity t t' →
  attemptCount aid uid (<[k := t']> atts) = attemptCount aid uid atts.
Proof.
  intros Hk (Ha & Hu & _).
  rewrite <- (insert_delete_id atts k t Hk) at 2.
  rewrite <- (insert_delete_eq atts k t').
  rewrite !attemptCount_insert_new by apply lookup_delete_eq.
  unfold counted. by rewrite Ha, Hu.
Qed.

(** Counted attempts never go away: the count of an assessment and a
    user does not decrease, whatever the request. *)
Lemma attemptCount_handle aid uid r st :
  attemptCount aid uid (attempts st) ≤ attemptCount aid uid (attempts (handle r st)).
Proof.
  destruct (handle_attempts_shape r st)
    as [E | [(k & t0 & Hk & E) | (k & t0 & t' & Hk & E & Hid & _)]];
    rewrite E.
  - lia.
  - rewrite attemptCount_insert_new by done. destruct (counted _ _ _); lia.
  - rewrite (attemptCount_insert_same _ _ _ _ _ _ Hk Hid). lia.
Qed.

Lemma attemptCount_run aid uid rs st :
  attemptCount aid uid (attempts st) ≤ attemptCount aid uid (attempts (run rs st)).
Proof.
  revert st. induction rs as [| r rs IH]; intros st; simpl; [lia |].
  etrans; [apply (attemptCount_handle aid uid r) | apply IH].
Qed.

(** C10: when the attempts a user already has on a published assessment,
    whatever their status, are at least [allowedAttempts], a start inside
    the window is refused with "Maximum attempts reached"; it is still
    refused after any further requests (finishing or timing out an attempt
    frees no slot), and the count does not see the status: rewriting the
    attempts in any way that keeps their assessment and user leaves it
    unchanged. *)
Theorem C10_attempt_limit_counts_every_status
    (st : State) (u : User) (id : string) (a : Assessment) :
  assessments st !! id = Some a → a_status a = Published →
  a_allowedAttempts a ≤ attemptCount id (userId u) (attempts st) →
  (∀ rs now newId coins,
     notStartedYet a now = false → alreadyEnded a now = false →
     startAttempt now newId coins u id (run rs st)
     = (run rs st, Fail MaxAttemptsReached))
  ∧ (∀ f : Attempt → Attempt,
       (∀ t, at_assessment (f t) = at_assessment t ∧ at_user (f t) = at_user t) →
       attemptCount id (userId u) (f <$> attempts st)
       = attemptCount id (userId u) (attempts st)).
Proof.
  intros Ha Hp Hc. split.
  - intros rs now newId coins Hs He. unfold startAttempt.
    rewrite (run_assessment_kept rs st id a Ha), Hp, Hs, He. simpl.
    pose proof (attemptCount_run id (userId u) rs st) as Hm.
    destruct (Z.leb_spec (a_allowedAttempts a)
                (attemptCount id (userId u) (attempts (run rs st)))); [done | lia].
  - intros f Hf. unfold attemptCount. f_equal.
    rewrite map_to_list_fmap.
    generalize (map_to_list (attempts st)). intros l.
    induction l as [| [k t] l IH]; simpl; [done |].
    assert (counted id (userId u) (f t) = counted id (userId u) t) as ->.
    { unfold counted. by destruct (Hf t) as [-> ->]. }
    destruct (counted id (userId u) t); simpl; [f_equal |]; apply IH.
Qed.

Lemma C10_attempt_limit_counts_every_status_witness :
  (∀ rs now newId coins,
     notStartedYet Samples.quiz now = false → alreadyEnded Samples.quiz now = false →
     startAttempt now newId coins Samples.alice "a1" (run rs Samples.started)
     = (run rs Samples.started, Fail MaxAttemptsReached))
  ∧ (∀ f : Attempt → Attempt,
       (∀ t, at_assessment (f t) = at_assessment t ∧ at_user (f t) = at_user t) →
       attemptCount "a1" "u1" (f <$> attempts Samples.started)
       = attemptCount "a1" "u1" (attempts Samples.started)).
Proof.
  apply (C10_attempt_limit_counts_every_status
           Samples.started Samples.alice "a1" Samples.quiz).
  - vm_compute. reflexivity.
  - reflexivity.
  - vm_compute. discriminate.
Defined.

End AttemptLimit.

(** ** The availability window *)

Section Window.

(** C5, as amended: for a published assessment with both times set, a
    start is refused for the schedule ("has not started yet" or "has
    already ended") if and only if [now] is outside the closed window
    [startTime ≤ now ≤ endTime]; a start exactly at [now = endTime] passes
    the schedule check. *)
Theorem C5_window_is_closed (now : Z) (newId : string) (coins : list bool)
    (u : User) (id : string) (st : State) (a : Assessment) (s e : Z) :
  assessments st !! id = Some a → a_status a = Published →
  a_startTime a = Some s → a_endTime a = Some e →
  let reply := (startAttempt now newId coins u id st).2 in
  (reply = Fail AssessmentNotStarted ∨ reply = Fail AssessmentEnded)
  ↔ ¬ (s ≤ now ≤ e).
Proof.
  intros Ha Hp Hs He. simpl. unfold startAttempt, notStartedYet, alreadyEnded.
  rewrite Ha, Hp, Hs, He. simpl.
  destruct (Z.ltb_spec now s); simpl; [split; [lia | by left] |].
  destruct (Z.ltb_spec e now); simpl; [split; [lia | by right] |].
  split; [| lia]. repeat case_match; simpl; intros [? | ?]; congruence.
Qed.

Lemma C5_window_is_closed_witness :
  ((startAttempt 1000000 "at1" [] Samples.alice "a1" Samples.authored).2
     = Fail AssessmentNotStarted
   ∨ (startAttempt 1000000 "at1" [] Samples.alice "a1" Samples.authored).2
     = Fail AssessmentEnded)
  ↔ ¬ (0 ≤ 1000000 ≤ 1000000).
Proof.
  apply (C5_window_is_closed 1000000 "at1" [] Samples.alice "a1"
           Samples.authored Samples.quiz 0 1000000).
  - vm_compute. reflexivity.
  - reflexivity.
  - reflexivity.
  - reflexivity.
Defined.

(** C5 as stated fails at the end of the window: the quiz ends at
    1000000 and a start at exactly that time succeeds. *)
Lemma C5_start_at_endTime_counterexample :
  a_endTime Samples.quiz = Some 1000000
  ∧ assessments Samples.authored !! "a1" = Some Samples.quiz
  ∧ ∃ st r, startAttempt 1000000 "at1" [] Samples.alice "a1" Samples.authored
            = (st, Ok r).
Proof.
  split; [reflexivity |]. split; [vm_compute; reflexivity |].
  eexists _, _. vm_compute. reflexivity.
Qed.

End Window.

(** ** Finishing an attempt *)

Section Finish.

Implicit Types (st : State) (t : Attempt) (u : User).

Lemma sumPoints_from (l : list AnswerSlot) (acc : Z) :
  fold_left (fun total answer => total + ans_points answer) l acc
  = acc + foldr Z.add 0 (map ans_points l).
Proof.
  revert acc. induction l as [| x l IH]; intros acc; simpl; [lia |].
  rewrite IH. lia.
Qed.

Lemma sumPoints_sum (l : list AnswerSlot) :
  sumPoints l = foldr Z.add 0 (map ans_points l).
Proof. unfold sumPoints. rewrite sumPoints_from. lia. Qed.

Lemma eqb_user t u : at_user t = userId u → (at_user t =? userId u)%string = true.
Proof. intros ->. apply String.eqb_refl. Qed.

(** The state and the reply of a finish by the owner of an attempt in
    progress, whatever the time. *)
Lemma finishAttempt_in_progress now u id st t :
  attempts st !! id = Some t → at_user t = userId u → at_status t = InProgress →
  let st' := set_redis (delete (cacheKey id))
               (set_attempts (insert id (complete now t)) st) in
  (finishAttempt now u id st).1 = st'
  ∧ ∀ a, assessments st !! at_assessment t = Some a →
      (finishAttempt now u id st).2
      = Ok {| r_totalScore := sumPoints (at_answers t);
              r_maxPossibleScore := at_maxPossibleScore t;
              r_percentage := percentage (sumPoints (at_answers t))
                                (at_maxPossibleScore t);
              r_passed := a_passingScore a <=? sumPoints (at_answers t);
              r_completionTime := Qmake (now - at_startTime t) 1000 |}.
Proof.
  intros Ht Hu Hs. unfold finishAttempt.
  rewrite Ht, (eqb_user _ _ Hu), Hs. simpl. split.
  - by destruct (assessments st !! at_assessment t).
  - by intros a ->.
Qed.

(** C6: a finish by the owner of an attempt in progress stores the
    attempt as completed, ended now, with the completion time
    (now - startTime) / 1000 seconds and the total score the sum of the
    points of its answer slots; it removes the cache record of the
    attempt; and it reports [passed] exactly when the total score, in
    points, is at least the passing score of the assessment. *)
Theorem C6_finish_completes_and_scores (now : Z) (u : User) (id : string)
    (st : State) (t : Attempt) (a : Assessment) :
  attempts st !! id = Some t → at_user t = userId u → at_status t = InProgress →
  assessments st !! at_assessment t = Some a →
  ∃ st' r t',
    finishAttempt now u id st = (st', Ok r)
    ∧ attempts st' !! id = Some t'
    ∧ at_status t' = Completed
    ∧ at_endTime t' = Some now
    ∧ at_completionTime t' = Some (Qmake (now - at_startTime t) 1000)
    ∧ at_totalScore t' = foldr Z.add 0 (map ans_points (at_answers t))
    ∧ redis st' !! cacheKey id = None
    ∧ r_totalScore r = at_totalScore t'
    ∧ r_completionTime r = Qmake (now - at_startTime t) 1000
    ∧ (r_passed r = true ↔ a_passingScore a ≤ at_totalScore t').
Proof.
  intros Ht Hu Hs Ha.
  destruct (finishAttempt_in_progress now u id st t Ht Hu Hs) as [E1 E2].
  specialize (E2 a Ha).
  destruct (finishAttempt now u id st) as [st' reply]. simpl in E1, E2. subst.
  eexists _, _, (complete now t). split; [reflexivity |]. simpl.
  rewrite lookup_insert_eq, lookup_delete_eq, sumPoints_sum.
  repeat split; try done; apply Z.leb_le.
Qed.

Lemma C6_finish_completes_and_scores_witness :
  ∃ st' r t',
    finishAttempt 5000 Samples.alice "at1" Samples.answered = (st', Ok r)
    ∧ attempts st' !! "at1" = Some t'
    ∧ at_status t' = Completed
    ∧ at_endTime t' = Some 5000
    ∧ at_completionTime t' = Some (Qmake (5000 - 1000) 1000)
    ∧ at_totalScore t' = 10
    ∧ redis st' !! cacheKey "at1" = None
    ∧ r_totalScore r = at_totalScore t'
    ∧ r_completionTime r = Qmake (5000 - 1000) 1000
    ∧ (r_passed r = true ↔ 5 ≤ at_totalScore t').
Proof.
  apply (C6_finish_completes_and_scores 5000 Samples.alice "at1" Samples.answered
           (Samples.answeredAttempt) Samples.quiz).
  - vm_compute. reflexivity.
  - reflexivity.
  - reflexivity.
  - vm_compute. reflexivity.
Defined.

(** No handler but the late branch of SubmitAnswer stores an attempt as
    timed out: an attempt that is timed out after a request either was so
    before it, or the request is an answer that its owner submitted after
    the time limit while it was in progress. *)
Lemma timed_out_by_late_submit (req : Request) (st : State) (id : string)
    (t' : Attempt) :
  attempts (handle req st) !! id = Some t' → at_status t' = TimedOut →
  (∃ t, attempts st !! id = Some t ∧ at_status t = TimedOut)
  ∨ (∃ now u questionId answer t a,
       req = SubmitAnswer now u id questionId answer
       ∧ attempts st !! id = Some t ∧ at_user t = userId u
       ∧ at_status t = InProgress
       ∧ assessments st !! at_assessment t = Some a
       ∧ timeLimit t a < now
       ∧ t' = timeOut t (timeLimit t a)).
Proof.
  intros Ht' Hs'.
  assert (attempts st !! id = Some t' →
          ∃ t, attempts st !! id = Some t ∧ at_status t = TimedOut) as Hold.
  { intros H. by exists t'. }
  destruct req as [newId u body | u i body | u i | newId u body
                  | now newId coins u i | now u i questionId answer
                  | now u i | now u i type details]; simpl in Ht'.
  - left. apply Hold. revert Ht'. unfold createQuestion.
    by repeat case_match.
  - left. apply Hold. revert Ht'. unfold updateQuestion.
    by repeat case_match.
  - left. apply Hold. revert Ht'. unfold deleteQuestion.
    by repeat case_match.
  - left. apply Hold. revert Ht'. unfold createAssessment.
    by repeat case_match.
  - left. apply Hold. revert Ht'. unfold startAttempt.
    repeat case_match; simpl; try done.
    all: destruct (decide (newId = id)) as [-> | Hne];
      [rewrite lookup_insert_eq; intros [= <-]; by simpl in Hs'
      | by rewrite lookup_insert_ne by done].
  - revert Ht'. unfold submitAnswer.
    destruct (attempts st !! i) as [t |] eqn:Ht; [| by left; apply Hold].
    destruct (String.eqb_spec (at_user t) (userId u)) as [Hu | Hu]; simpl;
      [| by left; apply Hold].
    destruct (is_in_progress (at_status t)) eqn:Hp; simpl;
      [| by left; apply Hold].
    assert (at_status t = InProgress) as Hin.
    { by destruct (at_status t). }
    destruct (assessments st !! at_assessment t) as [a |] eqn:Ha;
      [| by left; apply Hold].
    destruct (Z.ltb_spec (timeLimit t a) now) as [Hlate | Hearly]; simpl.
    + destruct (decide (i = id)) as [-> | Hne].
      * rewrite lookup_insert_eq. intros [= <-]. right.
        by exists now, u, questionId, answer, t, a.
      * rewrite lookup_insert_ne by done. by left; apply Hold.
    + destruct (findIndex questionId (at_answers t)) as [k |];
        [| by left; apply Hold].
      destruct (questions st !! questionId) as [q |]; [| by left; apply Hold].
      destruct (at_answers t !! k) as [slot |]; [| by left; apply Hold].
      simpl. destruct (decide (i = id)) as [-> | Hne].
      * rewrite lookup_insert_eq. intros [= <-]. simpl in Hs'. congruence.
      * rewrite lookup_insert_ne by done. by left; apply Hold.
  - left. revert Ht'. unfold finishAttempt.
    destruct (attempts st !! i) as [t |] eqn:Ht; [| apply Hold].
    repeat case_match; simpl; try apply Hold.
    all: destruct (decide (i = id)) as [-> | Hne];
      [rewrite lookup_insert_eq; intros [= <-]; by simpl in Hs'
      | rewrite lookup_insert_ne by done; apply Hold].
  - left. revert Ht'. unfold recordProctoring.
    destruct (attempts st !! i) as [t |] eqn:Ht; [| apply Hold].
    repeat case_match; simpl; try apply Hold.
    destruct (decide (i = id)) as [-> | Hne].
    + rewrite lookup_insert_eq. intros [= <-]. by exists t.
    + rewrite lookup_insert_ne by done. apply Hold.
Qed.

(** C4, as amended.  A finish by the owner of an attempt in progress
    completes it even after the time limit: the status becomes
    [Completed], not [TimedOut], and the end time is now, not
    [startTime + duration].  And the timeout transition is triggered by
    SubmitAnswer only: whatever the request, an attempt that is timed
    out after it was timed out before it, unless the request is an
    answer that the owner of the attempt, then in progress, submits
    after the time limit. *)
Theorem C4_late_finish_completes :
  (∀ (now : Z) (u : User) (id : string) (st : State) (t : Attempt)
     (a : Assessment),
     attempts st !! id = Some t → at_user t = userId u →
     at_status t = InProgress →
     assessments st !! at_assessment t = Some a →
     timeLimit t a < now →
     ∃ st' r t',
       finishAttempt now u id st = (st', Ok r)
       ∧ attempts st' !! id = Some t'
       ∧ at_status t' = Completed
       ∧ at_endTime t' = Some now)
  ∧ (∀ (req : Request) (st : State) (id : string) (t' : Attempt),
       attempts (handle req st) !! id = Some t' → at_status t' = TimedOut →
       (∃ t, attempts st !! id = Some t ∧ at_status t = TimedOut)
       ∨ (∃ now u questionId answer t a,
            req = SubmitAnswer now u id questionId answer
            ∧ attempts st !! id = Some t ∧ at_user t = userId u
            ∧ at_status t = InProgress
            ∧ assessments st !! at_assessment t = Some a
            ∧ timeLimit t a < now
            ∧ t' = timeOut t (timeLimit t a))).
Proof.
  split; [| exact timed_out_by_late_submit].
  intros now u id st t a Ht Hu Hs Ha _.
  destruct (finishAttempt_in_progress now u id st t Ht Hu Hs) as [E1 E2].
  specialize (E2 a Ha).
  destruct (finishAttempt now u id st) as [st' reply]. simpl in E1, E2. subst.
  eexists _, _, (complete now t). split; [reflexivity |]. simpl.
  by rewrite lookup_insert_eq.
Qed.

Lemma C4_late_finish_completes_witness :
  (∃ st' r t',
     finishAttempt 700000 Samples.alice "at1" Samples.answered = (st', Ok r)
     ∧ attempts st' !! "at1" = Some t'
     ∧ at_status t' = Completed
     ∧ at_endTime t' = Some 700000)
  ∧ ((∃ t, attempts Samples.answered !! "at1" = Some t
           ∧ at_status t = TimedOut)
     ∨ (∃ now u questionId answer t a,
          SubmitAnswer 700000 Samples.alice "at1" "q1" (AnsAtom (JStr "a"))
          = SubmitAnswer now u "at1" questionId answer
          ∧ attempts Samples.answered !! "at1" = Some t
          ∧ at_user t = userId u
          ∧ at_status t = InProgress
          ∧ assessments Samples.answered !! at_assessment t = Some a
          ∧ timeLimit t a < now
          ∧ Samples.timedOutAttempt = timeOut t (timeLimit t a))).
Proof.
  split.
  - apply (proj1 C4_late_finish_completes 700000 Samples.alice "at1"
             Samples.answered Samples.answeredAttempt Samples.quiz).
    + vm_compute. reflexivity.
    + reflexivity.
    + reflexivity.
    + vm_compute. reflexivity.
    + vm_compute. reflexivity.
  - apply (proj2 C4_late_finish_completes
             (SubmitAnswer 700000 Samples.alice "at1" "q1" (AnsAtom (JStr "a")))
             Samples.answered "at1" Samples.timedOutAttempt).
    + vm_compute. reflexivity.
    + reflexivity.
Defined.

(** C4 as stated fails: Alice started at 1000 with 10 minutes, so her
    limit is 601000; her finish at 700000 leaves the attempt completed
    with end time 700000, not timed out at 601000. *)
Lemma C4_late_finish_counterexample :
  timeLimit Samples.answeredAttempt Samples.quiz = 601000
  ∧ ∃ t', attempts (finishAttempt 700000 Samples.alice "at1" Samples.answered).1
            !! "at1" = Some t'
          ∧ at_status t' ≠ TimedOut
          ∧ at_endTime t' ≠ Some 601000.
Proof.
  split; [reflexivity |].
  eexists. split; [vm_compute; reflexivity |]. split; discriminate.
Qed.

End Finish.

(** ** The time limit *)

Section TimeLimit.

Implicit Types (st : State) (t : Attempt) (u : User).

(** C3: when the owner of an attempt in progress submits an answer after
    [startTime + duration], the reply is "Assessment time limit exceeded"
    and the attempt is stored as timed out, ended at
    [startTime + duration] (not now), with the completion time
    [duration * 60000 / 1000] seconds counted to that boundary; any
    later finish of that attempt by its owner, after any further
    requests, is refused with "Attempt is already completed" and changes
    nothing. *)
Theorem C3_submit_after_limit_times_out (now : Z) (u : User)
    (id questionId : string) (answer : JsAnswer) (st : State)
    (t : Attempt) (a : Assessment) :
  attempts st !! id = Some t → at_user t = userId u → at_status t = InProgress →
  assessments st !! at_assessment t = Some a →
  at_startTime t + a_duration a * 60000 < now →
  ∃ st' t',
    submitAnswer now u id questionId answer st = (st', Fail TimeLimitExceeded)
    ∧ attempts st' !! id = Some t'
    ∧ at_status t' = TimedOut
    ∧ at_endTime t' = Some (at_startTime t + a_duration a * 60000)
    ∧ at_completionTime t' = Some (Qmake (a_duration a * 60000) 1000)
    ∧ ∀ rs now',
        finishAttempt now' u id (run rs st')
        = (run rs st', Fail AttemptAlreadyCompleted).
Proof.
  intros Ht Hu Hs Ha Hlate.
  exists (set_attempts (insert id (timeOut t (timeLimit t a))) st),
         (timeOut t (timeLimit t a)).
  split; [| split; [| split; [| split; [| split]]]].
  - unfold submitAnswer. rewrite Ht, (eqb_user _ _ Hu), Hs, Ha. simpl.
    unfold timeLimit at 1.
    by destruct (Z.ltb_spec (at_startTime t + a_duration a * 60000) now); [| lia].
  - simpl. apply lookup_insert_eq.
  - done.
  - done.
  - simpl. unfold timeLimit. do 2 f_equal. lia.
  - intros rs now'.
    destruct (run_attempt_kept rs
                (set_attempts (insert id (timeOut t (timeLimit t a))) st)
                id (timeOut t (timeLimit t a)))
      as (t2 & H2 & (_ & Hu2 & _) & Hout); [simpl; apply lookup_insert_eq |].
    destruct Hout as (Hs2 & _); [done |].
    unfold finishAttempt. rewrite H2, Hu2, Hs2. simpl.
    by rewrite (eqb_user _ _ Hu).
Qed.

Lemma C3_submit_after_limit_times_out_witness :
  ∃ st' t',
    submitAnswer 700000 Samples.alice "at1" "q1" (AnsAtom (JStr "a")) Samples.answered
    = (st', Fail TimeLimitExceeded)
    ∧ attempts st' !! "at1" = Some t'
    ∧ at_status t' = TimedOut
    ∧ at_endTime t' = Some (1000 + 10 * 60000)
    ∧ at_completionTime t' = Some (Qmake (10 * 60000) 1000)
    ∧ ∀ rs now',
        finishAttempt now' Samples.alice "at1" (run rs st')
        = (run rs st', Fail AttemptAlreadyCompleted).
Proof.
  apply (C3_submit_after_limit_times_out 700000 Samples.alice "at1" "q1"
           (AnsAtom (JStr "a")) Samples.answered Samples.answeredAttempt Samples.quiz).
  - vm_compute. reflexivity.
  - reflexivity.
  - reflexivity.
  - vm_compute. reflexivity.
  - vm_compute. reflexivity.
Defined.

End TimeLimit.

(** ** Assessments without questions *)

Section EmptyAssessment.

Implicit Types (st : State) (t : Attempt) (u : User).



End EmptyAssessment.

(** ** Invariants of the reachable states *)

Section Reachable.

Import AssessmentInvariants.

Implicit Types (st : State) (r : Request) (t : Attempt) (a : Assessment).

Lemma insertRandom_Permutation {A} (x : A) (l : list A) (coins : list bool) :
  (insertRandom x l coins).1 ≡ₚ x :: l.
Proof.
  revert coins. induction l as [| y l IH]; intros coins; simpl; [done |].
  destruct coins as [| [] cs]; simpl; [done | done |].
  specialize (IH cs). destruct (insertRandom x l cs) as [r cs']. simpl in *.
  rewrite IH. apply perm_swap.
Qed.

(** The random sort returns the questions it was given, in some order. *)
Lemma randomSort_Permutation {A} (l : list A) (coins : list bool) :
  (randomSort l coins).1 ≡ₚ l.
Proof.
  induction l as [| x l IH]; simpl; [done |].
  destruct (randomSort l coins) as [r cs]. simpl in *.
  rewrite insertRandom_Permutation. by rewrite IH.
Qed.

Lemma attemptOk_ext st st' t :
  assessments st' = assessments st → attemptOk st t → attemptOk st' t.
Proof. unfold attemptOk. by intros ->. Qed.

Lemma wellFormed_same st st' :
  wellFormed st → assessments st' = assessments st → attempts st' = attempts st →
  wellFormed st'.
Proof.
  intros Ht Ea Et id t. rewrite Et. intros H.
  eapply attemptOk_ext, Ht; eauto.
Qed.

Lemma wellFormed_attempts st st' id t' :
  wellFormed st → assessments st' = assessments st →
  attempts st' = <[id := t']> (attempts st) → attemptOk st t' →
  wellFormed st'.
Proof.
  intros Ht Ea Et Hok i t. rewrite Et.
  destruct (decide (id = i)) as [<- | Hne].
  - rewrite lookup_insert_eq. intros [= <-]. by eapply attemptOk_ext.
  - rewrite lookup_insert_ne by done. intros H.
    eapply attemptOk_ext, Ht; eauto.
Qed.

Lemma findIndex_lookup questionId (l : list AnswerSlot) i :
  findIndex questionId l = Some i →
  ∃ slot, l !! i = Some slot ∧ ans_question slot = questionId
          ∧ ∀ j slot', (j < i)%nat → l !! j = Some slot' →
              ans_question slot' ≠ questionId.
Proof.
  revert i. induction l as [| a l IH]; intros i; simpl; [done |].
  destruct (String.eqb_spec (ans_question a) questionId) as [E | E].
  - intros [= <-]. exists a. repeat split; [done |]. intros j ? Hj. lia.
  - destruct (findIndex questionId l) as [i' |]; [| done]. simpl.
    intros [= <-]. destruct (IH i' eq_refl) as (slot & H1 & H2 & H3).
    exists slot. repeat split; [done | done |].
    intros [| j] slot' Hj; simpl; [by intros [= <-] |].
    apply H3. lia.
Qed.

Lemma grade_question q answer slot :
  ans_question (grade q answer slot) = ans_question slot.
Proof. unfold grade. by destruct (isAutoGraded _). Qed.

Lemma grade_timeSpent q answer slot :
  ans_timeSpent (grade q answer slot) = ans_timeSpent slot.
Proof. unfold grade. by destruct (isAutoGraded _). Qed.

(** Grading gives points to a slot only together with [isCorrect = true]. *)
Lemma grade_points q answer slot :
  (ans_isCorrect slot ≠ Some true → ans_points slot = 0) →
  ans_isCorrect (grade q answer slot) ≠ Some true →
  ans_points (grade q answer slot) = 0.
Proof.
  unfold grade. destruct (isAutoGraded _); simpl; [| done].
  intros _. unfold awarded. by repeat case_match.
Qed.

Lemma map_insert_same {A B} (f : A → B) (l : list A) i x x' :
  l !! i = Some x → f x' = f x → map f (<[i := x']> l) = map f l.
Proof.
  intros Hl Hf. change (f <$> <[i:=x']> l = f <$> l).
  rewrite list_fmap_insert, Hf. apply list_insert_id. by rewrite list_lookup_fmap, Hl.
Qed.

Lemma seconds_within (now start duration : Z) :
  ¬ (start + duration * 60000 < now) → (now - start) / 1000 ≤ duration * 60.
Proof.
  intros H. apply Z.div_le_upper_bound; lia.
Qed.

Lemma wellFormed_handle r st : wellFormed st → wellFormed (handle r st).
Proof.
  intros Hwf. pose proof Hwf as Hatt. destruct r; simpl.
  - unfold createQuestion. repeat case_match; simpl; by eapply wellFormed_same.
  - unfold updateQuestion. repeat case_match; simpl; by eapply wellFormed_same.
  - unfold deleteQuestion. repeat case_match; simpl; by eapply wellFormed_same.
  - unfold createAssessment.
    destruct (negb (isStaff u)); [done |].
    destruct (truthyString (b_title body)) as [title |]; [| done].
    destruct (b_duration body) as [duration |]; [| done].
    destruct (parseStatus _) as [status |]; [| done].
    destruct (assessments st !! newId) eqn:Hnew; [done |]. simpl.
    intros id t Ht. destruct (Hatt id t Ht) as (a & Ha & Hrest).
    exists a. split; [| done]. simpl.
    rewrite lookup_insert_ne; [done | congruence].
  - unfold startAttempt.
    destruct (assessments st !! id) as [a |] eqn:Ha; [| done].
    repeat case_match; simpl; try done.
    all: eapply (wellFormed_attempts st _ newId); [done | done | reflexivity |].
    all: exists a; simpl; split; [done |]; split; [done |].
    all: rewrite map_map; simpl; split; [| split; [| done]].
    all: try (apply (fmap_Permutation aq_question), randomSort_Permutation).
    all: try done.
    all: apply Forall_forall; intros s Hs; apply list_elem_of_In, in_map_iff in Hs
           as (q & <- & _); by split.
  - unfold submitAnswer.
    destruct (attempts st !! id) as [t |] eqn:Ht; [| done].
    destruct (negb _); [done |].
    destruct (negb (is_in_progress _)) eqn:Hs; [done |].
    assert (at_status t = InProgress) as Hp.
    { destruct (at_status t); simpl in Hs; congruence. }
    destruct (Hatt id t Ht) as (a & Ha & Hmax & Hperm & Hslots & Hout).
    rewrite Ha. unfold outcomeOk in Hout. rewrite Hp in Hout.
    destruct Hout as (He & Hc & Hts).
    destruct (Z.ltb_spec (timeLimit t a) now) as [Hlate | Hin]; simpl.
    + eapply (wellFormed_attempts st _ id); [done | done | reflexivity |].
      exists a. simpl. repeat split; try done.
      all: unfold timeLimit; simpl; try done; do 2 f_equal; lia.
    + destruct (findIndex questionId (at_answers t)) as [i |] eqn:Hi; [| done].
      destruct (findIndex_lookup _ _ _ Hi) as (slot & Hslot & Hq & _).
      rewrite Hslot.
      destruct (questions st !! questionId) as [q |]; [| done]. simpl.
      eapply (wellFormed_attempts st _ id); [done | done | reflexivity |].
      exists a. simpl. split; [done |]. split; [done |]. split; [| split].
      * rewrite (map_insert_same ans_question _ _ slot); [done | done |].
        by rewrite grade_question.
      * apply Forall_insert; [done |].
        pose proof (proj1 (Forall_lookup _ _) Hslots i slot Hslot) as [Hs1 Hs2].
        split.
        -- by apply grade_points.
        -- rewrite grade_timeSpent. simpl. intros n [= <-].
           apply seconds_within. unfold timeLimit in Hin. lia.
      * unfold outcomeOk. simpl. by rewrite Hp.
  - unfold finishAttempt.
    destruct (attempts st !! id) as [t |] eqn:Ht; [| done].
    destruct (negb _); [done |].
    destruct (negb (is_in_progress _)) eqn:Hs; [done |].
    destruct (Hatt id t Ht) as (a & Ha & Hmax & Hperm & Hslots & Hout).
    rewrite Ha. simpl.
    eapply (wellFormed_attempts st _ id); [done | done | reflexivity |].
    exists a. simpl. repeat split; try done. by exists now.
  - unfold recordProctoring.
    destruct (attempts st !! id) as [t |] eqn:Ht; [| done].
    destruct (negb _); [done |].
    destruct (negb (validEventType _)); [done |]. simpl.
    destruct (Hatt id t Ht) as (a & Ha & Hmax & Hperm & Hslots & Hout).
    eapply (wellFormed_attempts st _ id); [done | done | reflexivity |].
    by exists a.
Qed.

Lemma wellFormed_run rs st : wellFormed st → wellFormed (run rs st).
Proof.
  revert st. induction rs as [| r rs IH]; intros st H; simpl; [done |].
  by apply IH, wellFormed_handle.
Qed.

Lemma wellFormed_empty : wellFormed empty.
Proof. intros id x H; simpl in H; by rewrite lookup_empty in H. Qed.


(** Every attempt of a reachable state belongs to a stored assessment:
    its slots are the questions of that assessment, in some order, one
    slot for each entry, and its maximum score is the [totalPoints]
    stored with that assessment. *)
Theorem slots_are_the_assessment_questions (rs : list Request) (id : string)
    (t : Attempt) :
  attempts (run rs empty) !! id = Some t →
  ∃ a, assessments (run rs empty) !! at_assessment t = Some a
       ∧ map ans_question (at_answers t) ≡ₚ map aq_question (a_questions a)
       ∧ at_maxPossibleScore t = a_totalPoints a.
Proof.
  intros Ht.
  pose proof (wellFormed_run rs empty wellFormed_empty) as Hatt.
  destruct (Hatt id t Ht) as (a & Ha & Hmax & Hperm & _).
  by exists a.
Qed.

Lemma slots_are_the_assessment_questions_witness :
  ∃ a, assessments (run Samples.history empty)
         !! at_assessment Samples.timedOutAttempt = Some a
       ∧ map ans_question (at_answers Samples.timedOutAttempt)
         ≡ₚ map aq_question (a_questions a)
       ∧ at_maxPossibleScore Samples.timedOutAttempt = a_totalPoints a.
Proof.
  apply (slots_are_the_assessment_questions Samples.history "at1").
  vm_compute. reflexivity.
Defined.





(** In a reachable state a slot carries points only if it was graded
    correct, and the time spent recorded on a slot is at most the
    duration of the assessment, in seconds. *)
Theorem slot_points_and_time (rs : list Request) (id : string) (t : Attempt)
    (slot : AnswerSlot) :
  attempts (run rs empty) !! id = Some t → slot ∈ at_answers t →
  (ans_points slot ≠ 0 → ans_isCorrect slot = Some true)
  ∧ ∃ a, assessments (run rs empty) !! at_assessment t = Some a
         ∧ ∀ n, ans_timeSpent slot = Some n → n ≤ a_duration a * 60.
Proof.
  intros Ht Hslot.
  pose proof (wellFormed_run rs empty wellFormed_empty) as Hatt.
  destruct (Hatt id t Ht) as (a & Ha & _ & _ & Hslots & _).
  pose proof (proj1 (Forall_forall _ _) Hslots slot Hslot) as [H1 H2].
  split.
  - intros Hp. destruct (decide (ans_isCorrect slot = Some true)); [done |].
    by destruct Hp; apply H1.
  - by exists a.
Qed.

Lemma slot_points_and_time_witness :
  (ans_points
     {| ans_question := "q1"; ans_answer := AnsAtom (JStr "b");
        ans_isCorrect := Some true; ans_points := 10; ans_timeSpent := Some 2 |} ≠ 0 →
   Some true = Some true)
  ∧ ∃ a, assessments (run Samples.history empty)
           !! at_assessment Samples.timedOutAttempt = Some a
         ∧ ∀ n, Some 2 = Some n → n ≤ a_duration a * 60.
Proof.
  apply (slot_points_and_time Samples.history "at1" Samples.timedOutAttempt
           {| ans_question := "q1"; ans_answer := AnsAtom (JStr "b");
              ans_isCorrect := Some true; ans_points := 10;
              ans_timeSpent := Some 2 |}).
  - vm_compute. reflexivity.
  - apply list_elem_of_here.
Defined.


End Reachable.

(** ** Answers *)

Section Answers.

Implicit Types (st : State) (t : Attempt) (u : User) (q : Question).

Lemma eqb_user_neq t u : at_user t ≠ userId u → (at_user t =? userId u)%string = false.
Proof. intros H. by apply String.eqb_neq. Qed.

Lemma in_progress_status t : is_in_progress (at_status t) = true ↔ at_status t = InProgress.
Proof. by destruct (at_status t). Qed.

Lemma findIndex_Some_iff questionId (l : list AnswerSlot) :
  is_Some (findIndex questionId l) ↔ ∃ slot, slot ∈ l ∧ ans_question slot = questionId.
Proof.
  induction l as [| a l IH]; simpl.
  - split; [by intros [? ?] | intros (? & H & _); by apply elem_of_nil in H].
  - destruct (String.eqb_spec (ans_question a) questionId) as [E | E].
    + split; [intros _; exists a; split; [apply list_elem_of_here | done] | eauto].
    + destruct (findIndex questionId l) as [i |]; simpl.
      * split; [intros _ | eauto].
        destruct (proj1 IH) as (slot & H1 & H2); [eauto |].
        exists slot. split; [by apply list_elem_of_further | done].
      * split; [by intros [? ?] |]. intros (slot & H1 & H2).
        apply elem_of_cons in H1 as [-> | H1]; [done |].
        destruct (proj2 IH) as [? ?]; [eauto | done].
Qed.

Lemma submitAnswer_ok now u id questionId answer st st' :
  submitAnswer now u id questionId answer st = (st', Ok tt) ↔
  ∃ t a i slot q,
    attempts st !! id = Some t ∧ at_user t = userId u ∧ at_status t = InProgress
    ∧ assessments st !! at_assessment t = Some a
    ∧ now ≤ at_startTime t + a_duration a * 60000
    ∧ findIndex questionId (at_answers t) = Some i
    ∧ at_answers t !! i = Some slot
    ∧ questions st !! questionId = Some q
    ∧ st' = answeredState now id answer st t i slot q.
Proof.
  unfold submitAnswer. split.
  - destruct (attempts st !! id) as [t |] eqn:Ht; [| done].
    destruct (String.eqb_spec (at_user t) (userId u)) as [Hu | Hu]; simpl; [| done].
    destruct (is_in_progress (at_status t)) eqn:Hs; simpl; [| done].
    apply in_progress_status in Hs.
    destruct (assessments st !! at_assessment t) as [a |] eqn:Ha; [| done].
    unfold timeLimit.
    destruct (Z.ltb_spec (at_startTime t + a_duration a * 60000) now); [done |].
    destruct (findIndex questionId (at_answers t)) as [i |] eqn:Hi; [| done].
    destruct (questions st !! questionId) as [q |] eqn:Hq; [| done].
    destruct (at_answers t !! i) as [slot |] eqn:Hslot; [| done].
    intros [= <-]. exists t, a, i, slot, q. by repeat split.
  - intros (t & a & i & slot & q & -> & Hu & Hs & -> & Hin & -> & -> & -> & ->).
    rewrite (eqb_user _ _ Hu), Hs. simpl. unfold timeLimit.
    by destruct (Z.ltb_spec (at_startTime t + a_duration a * 60000) now); [lia |].
Qed.

(** An answer is accepted exactly when the attempt exists, belongs to the
    caller and is in progress, its assessment exists, the time is not
    after [startTime + duration] (the limit itself is accepted), the
    question has a slot in the attempt and is in the question bank. *)
Theorem submit_accepted_iff (now : Z) (u : User) (id questionId : string)
    (answer : JsAnswer) (st : State) :
  (submitAnswer now u id questionId answer st).2 = Ok tt ↔
  ∃ t a,
    attempts st !! id = Some t ∧ at_user t = userId u ∧ at_status t = InProgress
    ∧ assessments st !! at_assessment t = Some a
    ∧ now ≤ at_startTime t + a_duration a * 60000
    ∧ (∃ slot, slot ∈ at_answers t ∧ ans_question slot = questionId)
    ∧ is_Some (questions st !! questionId).
Proof.
  split.
  - intros H.
    destruct (submitAnswer now u id questionId answer st) as [st' reply] eqn:E.
    simpl in H. subst reply.
    apply submitAnswer_ok in E
      as (t & a & i & slot & q & Ht & Hu & Hs & Ha & Hin & Hi & Hslot & Hq & _).
    exists t, a. repeat split; try done.
    apply findIndex_Some_iff. by rewrite Hi.
  - intros (t & a & Ht & Hu & Hs & Ha & Hin & Hslot & [q Hq]).
    apply findIndex_Some_iff in Hslot as [i Hi].
    destruct (findIndex_lookup _ _ _ Hi) as (slot & Hl & _).
    erewrite (proj2 (submitAnswer_ok now u id questionId answer st _)); [done |].
    exists t, a, i, slot, q. by repeat split.
Qed.

(** The grade of a slot depends on the question and the answer only:
    grading the same answer again gives the same result. *)
Lemma grade_again q answer n1 n2 slot :
  let s1 := grade q answer (recordAnswer answer n1 slot) in
  let s2 := grade q answer (recordAnswer answer n2 s1) in
  ans_isCorrect s2 = ans_isCorrect s1 ∧ ans_points s2 = ans_points s1
  ∧ ans_answer s2 = ans_answer s1 ∧ ans_question s2 = ans_question s1.
Proof. unfold grade. by destruct (isAutoGraded (q_type q)). Qed.

Lemma findIndex_insert questionId (l : list AnswerSlot) i slot slot' :
  l !! i = Some slot → ans_question slot' = ans_question slot →
  findIndex questionId (<[i := slot']> l) = findIndex questionId l.
Proof.
  revert i. induction l as [| a l IH]; intros [| i] Hl Hq; simpl in *; try done.
  - injection Hl as ->. by rewrite Hq.
  - by rewrite (IH i).
Qed.

(** Submitting the same answer to the same question twice leaves
    [isCorrect], the points and the answer of every slot as the first
    submission left them. *)
Theorem resubmitting_keeps_the_grade (now1 now2 : Z) (u : User)
    (id questionId : string) (answer : JsAnswer) (st st1 st2 : State) :
  submitAnswer now1 u id questionId answer st = (st1, Ok tt) →
  submitAnswer now2 u id questionId answer st1 = (st2, Ok tt) →
  ∃ t1 t2,
    attempts st1 !! id = Some t1 ∧ attempts st2 !! id = Some t2
    ∧ map ans_isCorrect (at_answers t2) = map ans_isCorrect (at_answers t1)
    ∧ map ans_points (at_answers t2) = map ans_points (at_answers t1)
    ∧ map ans_answer (at_answers t2) = map ans_answer (at_answers t1).
Proof.
  intros E1 E2.
  apply submitAnswer_ok in E1
    as (t & a & i & slot & q & Ht & Hu & Hs & Ha & Hin & Hi & Hslot & Hq & ->).
  apply submitAnswer_ok in E2
    as (t1 & a1 & i1 & slot1 & q1 & Ht1 & _ & _ & _ & _ & Hi1 & Hslot1 & Hq1 & ->).
  simpl in Ht1, Hq1. rewrite lookup_insert_eq in Ht1. injection Ht1 as <-.
  simpl in Hi1, Hslot1. assert (q1 = q) as -> by congruence.
  rewrite (findIndex_insert _ _ _ slot) in Hi1
    by (done || by rewrite grade_question).
  assert (i1 = i) as -> by congruence.
  rewrite list_lookup_insert_eq in Hslot1 by (by eapply lookup_lt_Some).
  injection Hslot1 as <-.
  eexists _, _. split; [simpl; apply lookup_insert_eq |].
  split; [simpl; apply lookup_insert_eq |]. simpl.
  destruct (grade_again q answer ((now1 - at_startTime t) / 1000)
              ((now2 - at_startTime t) / 1000) slot) as (H1 & H2 & H3 & _).
  set (s1 := grade q answer (recordAnswer answer ((now1 - at_startTime t) / 1000) slot))
    in *.
  assert (<[i := s1]> (at_answers t) !! i = Some s1) as Hl.
  { apply list_lookup_insert_eq. by eapply lookup_lt_Some. }
  by rewrite !(map_insert_same _ (<[i := s1]> (at_answers t)) i s1).
Qed.

Lemma resubmitting_keeps_the_grade_witness :
  ∃ t1 t2,
    attempts Samples.answered !! "at1" = Some t1
    ∧ attempts (submitAnswer 4000 Samples.alice "at1" "q1" (AnsAtom (JStr "b"))
                  Samples.answered).1 !! "at1" = Some t2
    ∧ map ans_isCorrect (at_answers t2) = map ans_isCorrect (at_answers t1)
    ∧ map ans_points (at_answers t2) = map ans_points (at_answers t1)
    ∧ map ans_answer (at_answers t2) = map ans_answer (at_answers t1).
Proof.
  apply (resubmitting_keeps_the_grade 3000 4000 Samples.alice "at1" "q1"
           (AnsAtom (JStr "b")) Samples.started).
  - vm_compute. reflexivity.
  - vm_compute. reflexivity.
Defined.

(** Single choice and true-false: only the first option flagged correct
    counts; the answer is graded correct exactly when it is the string id
    of that option, and then earns the points of the question; without a
    flagged option the result is undefined and the points are 0. *)
Theorem single_choice_first_flagged_option (q : Question) (answer : JsAnswer) :
  (∀ pre o post,
     q_options q = (pre ++ o :: post)%list →
     Forall (λ o', opt_isCorrect o' = false) pre → opt_isCorrect o = true →
     (gradeSingleChoice q answer = Some true ↔ answer = AnsAtom (JStr (opt_id o)))
     ∧ (answer = AnsAtom (JStr (opt_id o)) →
        awarded (gradeSingleChoice q answer) q = q_points q)
     ∧ (answer ≠ AnsAtom (JStr (opt_id o)) →
        awarded (gradeSingleChoice q answer) q = 0))
  ∧ (Forall (λ o', opt_isCorrect o' = false) (q_options q) →
     gradeSingleChoice q answer = None ∧ awarded (gradeSingleChoice q answer) q = 0).
Proof.
  assert (∀ pre o post,
            Forall (λ o', opt_isCorrect o' = false) pre → opt_isCorrect o = true →
            List.find opt_isCorrect (pre ++ o :: post)%list = Some o) as Hfind.
  { intros pre o post Hpre Ho. induction Hpre as [| o' pre Ho' _ IH]; simpl.
    - by rewrite Ho.
    - by rewrite Ho'. }
  assert (∀ id, strict_eq id answer = true ↔ answer = AnsAtom (JStr id)) as Hstrict.
  { intros id. unfold strict_eq. destruct answer as [| [s | | |] |]; try by split.
    rewrite String.eqb_eq. split; [by intros -> | by intros [= ->]]. }
  split.
  - intros pre o post Hq Hpre Ho. unfold gradeSingleChoice.
    rewrite Hq, (Hfind pre o post Hpre Ho). split.
    + rewrite <- Hstrict. split; [by intros [= ->] | by intros ->].
    + unfold awarded. split.
      * intros H. apply Hstrict in H. by rewrite H.
      * intros H. destruct (strict_eq (opt_id o) answer) eqn:E; [| done].
        by apply Hstrict in E.
  - intros Hnone. unfold gradeSingleChoice.
    assert (List.find opt_isCorrect (q_options q) = None) as ->; [| done].
    induction Hnone as [| o l Ho _ IH]; simpl; [done |]. by rewrite Ho.
Qed.


Lemma single_choice_first_flagged_option_witness :
  (gradeSingleChoice
     {| q_type := SingleChoice;
        q_options := [Samples.opt "a" false; Samples.opt "b" true; Samples.opt "c" true];
        q_points := 3; q_createdBy := "t1"; q_organization := None |}
     (AnsAtom (JStr "c")) = Some true ↔ AnsAtom (JStr "c") = AnsAtom (JStr "b"))
  ∧ (gradeSingleChoice Samples.multi (AnsAtom (JStr "a")) = Some true
     ↔ AnsAtom (JStr "a") = AnsAtom (JStr "a")).
Proof.
  split.
  - apply (proj1 (single_choice_first_flagged_option
                    {| q_type := SingleChoice;
                       q_options := [Samples.opt "a" false; Samples.opt "b" true;
                                     Samples.opt "c" true];
                       q_points := 3; q_createdBy := "t1"; q_organization := None |}
                    (AnsAtom (JStr "c")))
             [Samples.opt "a" false] (Samples.opt "b" true) [Samples.opt "c" true]).
    + reflexivity.
    + by apply Forall_singleton.
    + reflexivity.
  - apply (proj1 (single_choice_first_flagged_option Samples.multi (AnsAtom (JStr "a")))
             [] (Samples.opt "a" true) [Samples.opt "b" true; Samples.opt "c" false]).
    + reflexivity.
    + apply Forall_nil_2.
    + reflexivity.
Defined.


End Answers.

(** ** Who may change an attempt, and when *)

Section Guards.

Implicit Types (st : State) (t : Attempt) (u : User).

(** A caller who is not the owner of an attempt cannot answer in it,
    finish it (or time it out) or add a proctoring event to it: each of
    these is refused with "Permission denied" and changes nothing. *)
Theorem only_the_owner_changes_an_attempt (st : State) (u : User) (id : string)
    (t : Attempt) :
  attempts st !! id = Some t → at_user t ≠ userId u →
  (∀ now questionId answer,
     submitAnswer now u id questionId answer st = (st, Fail PermissionDenied))
  ∧ (∀ now, finishAttempt now u id st = (st, Fail PermissionDenied))
  ∧ (∀ now type details,
       recordProctoring now u id type details st = (st, Fail PermissionDenied)).
Proof.
  intros Ht Hu. apply eqb_user_neq in Hu.
  unfold submitAnswer, finishAttempt, recordProctoring. rewrite Ht, Hu. by simpl.
Qed.

Lemma only_the_owner_changes_an_attempt_witness :
  (∀ now questionId answer,
     submitAnswer now Samples.bob "at1" questionId answer Samples.answered
     = (Samples.answered, Fail PermissionDenied))
  ∧ (∀ now, finishAttempt now Samples.bob "at1" Samples.answered
            = (Samples.answered, Fail PermissionDenied))
  ∧ (∀ now type details,
       recordProctoring now Samples.bob "at1" type details Samples.answered
       = (Samples.answered, Fail PermissionDenied)).
Proof.
  apply (only_the_owner_changes_an_attempt Samples.answered Samples.bob "at1"
           Samples.answeredAttempt).
  - vm_compute. reflexivity.
  - discriminate.
Defined.

(** An attempt is never removed, and no request changes its user, its
    assessment, its start time or its maximum score. *)
Theorem attempt_identity_is_kept (rs : list Request) (st : State) (id : string)
    (t : Attempt) :
  attempts st !! id = Some t →
  ∃ t', attempts (run rs st) !! id = Some t'
        ∧ at_user t' = at_user t ∧ at_assessment t' = at_assessment t
        ∧ at_startTime t' = at_startTime t
        ∧ at_maxPossibleScore t' = at_maxPossibleScore t.
Proof.
  intros Ht.
  destruct (run_attempt_kept rs st id t Ht) as (t' & H & (? & ? & ? & ?) & _).
  by exists t'.
Qed.

Lemma attempt_identity_is_kept_witness :
  ∃ t', attempts (run [SubmitAnswer 700000 Samples.alice "at1" "q1" AnsUndefined]
                    Samples.answered) !! "at1" = Some t'
        ∧ at_user t' = "u1" ∧ at_assessment t' = "a1"
        ∧ at_startTime t' = 1000 ∧ at_maxPossibleScore t' = 5.
Proof.
  apply (attempt_identity_is_kept _ Samples.answered "at1" Samples.answeredAttempt).
  vm_compute. reflexivity.
Defined.



End Guards.

(** ** Starting attempts over a run *)

Section Starts.

Implicit Types (st : State) (r : Request) (t : Attempt) (a : Assessment).

Lemma cacheKey_inj (x y : string) : cacheKey x = cacheKey y → x = y.
Proof. unfold cacheKey. simpl. intros H. by simplify_eq. Qed.

(** What an accepted start does. *)
Lemma startAttempt_ok now newId coins u id st st' reply :
  startAttempt now newId coins u id st = (st', Ok reply) →
  ∃ a t,
    attempts st' = <[newId := t]> (attempts st)
    ∧ assessments st !! id = Some a ∧ a_status a = Published
    ∧ notStartedYet a now = false ∧ alreadyEnded a now = false
    ∧ attemptCount id (userId u) (attempts st) < a_allowedAttempts a
    ∧ attempts st !! newId = None
    ∧ at_assessment t = id ∧ at_user t = userId u
    ∧ at_startTime t = now ∧ at_status t = InProgress
    ∧ redis st' = <[cacheKey newId :=
                      {| c_assessmentId := id; c_userId := userId u;
                         c_startTime := now; c_ttl := a_duration a * 60 |}]> (redis st)
    ∧ sr_attemptId reply = newId
    ∧ sr_questions reply ≡ₚ a_questions a.
Proof.
  unfold startAttempt.
  destruct (assessments st !! id) as [a |] eqn:Ha; [| done].
  destruct (a_status a) eqn:Hp; simpl; try done.
  destruct (notStartedYet a now) eqn:Hs; [done |].
  destruct (alreadyEnded a now) eqn:He; [done |].
  destruct (Z.leb_spec (a_allowedAttempts a) (attemptCount id (userId u) (attempts st)));
    [done |].
  destruct (attempts st !! newId) eqn:Hnew; [done |].
  intros [= <- <-]. eexists a, _. simpl.
  split; [reflexivity |]. simpl.
  do 10 (split; [done |]). split; [reflexivity |]. split; [done |].
  destruct (a_randomizeQuestions a); [apply randomSort_Permutation | done].
Qed.

(** Every request but a start rewrites attempts in place, if at all. *)
Lemma rewrite_in_place r st :
  (∀ now newId coins u id, r ≠ StartAttempt now newId coins u id) →
  attempts (handle r st) = attempts st
  ∨ (∃ k t t', attempts st !! k = Some t
               ∧ attempts (handle r st) = <[k := t']> (attempts st)
               ∧ sameIdentity t t').
Proof.
  intros Hr. destruct r; simpl.
  - unfold createQuestion. repeat case_match; by left.
  - unfold updateQuestion. repeat case_match; by left.
  - unfold deleteQuestion. repeat case_match; by left.
  - unfold createAssessment. repeat case_match; by left.
  - by destruct (Hr now newId coins u id).
  - unfold submitAnswer.
    destruct (attempts st !! id) as [t |] eqn:Ht; [| by left].
    repeat case_match; simpl; try by left.
    all: right; exists id, t; eexists; repeat split; eauto.
  - unfold finishAttempt.
    destruct (attempts st !! id) as [t |] eqn:Ht; [| by left].
    repeat case_match; simpl; try by left.
    all: right; exists id, t; eexists; repeat split; eauto.
  - unfold recordProctoring.
    destruct (attempts st !! id) as [t |] eqn:Ht; [| by left].
    repeat case_match; simpl; try by left.
    right. exists id, t. eexists. repeat split; eauto.
Qed.

(** A request either leaves the number of attempts of a user on an
    assessment, or is a start that found it under the limit and adds
    one. *)
Lemma attemptCount_step aid uid r st a :
  assessments st !! aid = Some a →
  attemptCount aid uid (attempts (handle r st)) = attemptCount aid uid (attempts st)
  ∨ (attemptCount aid uid (attempts st) < a_allowedAttempts a
     ∧ attemptCount aid uid (attempts (handle r st))
       = attemptCount aid uid (attempts st) + 1).
Proof.
  intros Ha.
  assert ((∀ now newId coins u id, r ≠ StartAttempt now newId coins u id)
          ∨ ∃ now newId coins u id, r = StartAttempt now newId coins u id)
    as [Hr | (now & newId & coins & u & id & ->)].
  { destruct r; try (by left); right; eauto 10. }
  - left. destruct (rewrite_in_place r st Hr) as [-> | (k & t & t' & Hk & -> & Hid)];
      [done |].
    by apply (attemptCount_insert_same _ _ _ _ _ _ Hk).
  - simpl. destruct (startAttempt now newId coins u id st) as [st' [reply |]] eqn:E.
    + apply startAttempt_ok in E
        as (a' & t & Hst & Ha' & _ & _ & _ & Hc & Hnew & Hta & Htu & _).
      simpl. rewrite Hst, attemptCount_insert_new by done.
      unfold counted. rewrite Hta, Htu.
      destruct (String.eqb_spec id aid) as [-> | ?]; simpl; [| left; lia].
      destruct (String.eqb_spec (userId u) uid) as [<- | ?]; simpl; [| left; lia].
      right. assert (a' = a) as -> by congruence. lia.
    + left. simpl. assert (st' = st) as ->; [| done].
      revert E. unfold startAttempt. repeat case_match; congruence.
Qed.

(** The attempt limit over a run: when a user has at most
    [allowedAttempts] attempts on an assessment, the same holds after any
    requests. *)
Theorem attempt_limit_is_never_exceeded (rs : list Request) (st : State)
    (aid uid : string) (a : Assessment) :
  assessments st !! aid = Some a →
  attemptCount aid uid (attempts st) ≤ a_allowedAttempts a →
  attemptCount aid uid (attempts (run rs st)) ≤ a_allowedAttempts a.
Proof.
  revert st. induction rs as [| r rs IH]; intros st Ha Hc; simpl; [done |].
  apply IH; [by apply handle_assessment_kept |].
  destruct (attemptCount_step aid uid r st a Ha) as [-> | [? ->]]; lia.
Qed.

Lemma attempt_limit_is_never_exceeded_witness :
  attemptCount "a1" "u1"
    (attempts (run [StartAttempt 1000 "at1" [] Samples.alice "a1";
                    FinishAttempt 2000 Samples.alice "at1";
                    StartAttempt 3000 "at3" [] Samples.alice "a1"]
                 Samples.authored))
  ≤ a_allowedAttempts Samples.quiz.
Proof.
  apply (attempt_limit_is_never_exceeded _ Samples.authored "a1" "u1" Samples.quiz).
  - vm_compute. reflexivity.
  - vm_compute. discriminate.
Defined.

(** An accepted start stores the attempt under the new id, in progress,
    for the caller, started now; it adds one to the caller's attempts on
    the assessment, which were under the limit; it puts a record under
    [attempt_<id>] in the cache with a time to live of [duration * 60]
    seconds; and it returns the questions of the assessment, in some
    order. *)
Theorem start_registers_attempt_and_cache (now : Z) (newId : string)
    (coins : list bool) (u : User) (id : string) (st st' : State)
    (reply : StartReply) :
  startAttempt now newId coins u id st = (st', Ok reply) →
  ∃ a t,
    assessments st !! id = Some a
    ∧ attempts st !! newId = None ∧ attempts st' !! newId = Some t
    ∧ at_status t = InProgress ∧ at_user t = userId u ∧ at_startTime t = now
    ∧ attemptCount id (userId u) (attempts st) < a_allowedAttempts a
    ∧ attemptCount id (userId u) (attempts st')
      = attemptCount id (userId u) (attempts st) + 1
    ∧ (c_ttl <$> redis st' !! cacheKey newId) = Some (a_duration a * 60)
    ∧ sr_attemptId reply = newId
    ∧ sr_questions reply ≡ₚ a_questions a.
Proof.
  intros E. apply startAttempt_ok in E
    as (a & t & Hst & Ha & _ & _ & _ & Hc & Hnew & Hta & Htu & Hts & Hs & Hr & Hid & Hq).
  exists a, t. rewrite Hst, Hr, lookup_insert_eq, lookup_insert_eq.
  rewrite attemptCount_insert_new by done.
  unfold counted. rewrite Hta, Htu, !String.eqb_refl. simpl.
  by repeat split.
Qed.

Lemma start_registers_attempt_and_cache_witness :
  ∃ a t,
    assessments Samples.authored !! "a1" = Some a
    ∧ attempts Samples.authored !! "at1" = None
    ∧ attempts Samples.started !! "at1" = Some t
    ∧ at_status t = InProgress ∧ at_user t = "u1" ∧ at_startTime t = 1000
    ∧ attemptCount "a1" "u1" (attempts Samples.authored) < a_allowedAttempts a
    ∧ attemptCount "a1" "u1" (attempts Samples.started)
      = attemptCount "a1" "u1" (attempts Samples.authored) + 1
    ∧ (c_ttl <$> redis Samples.started !! cacheKey "at1") = Some (a_duration a * 60)
    ∧ sr_attemptId
        {| sr_attemptId := "at1";
           sr_questions := [{| aq_question := "q1"; aq_points := Some 5 |}];
           sr_duration := 10; sr_startTime := 1000 |} = "at1"
    ∧ [{| aq_question := "q1"; aq_points := Some 5 |}] ≡ₚ a_questions a.
Proof.
  apply (start_registers_attempt_and_cache 1000 "at1" [] Samples.alice "a1"
           Samples.authored Samples.started
           {| sr_attemptId := "at1";
              sr_questions := [{| aq_question := "q1"; aq_points := Some 5 |}];
              sr_duration := 10; sr_startTime := 1000 |}).
  vm_compute. reflexivity.
Defined.

End Starts.

(** ** The question bank and the results *)

Section BankAndResults.

Implicit Types (st : State) (t : Attempt) (u : User) (q : Question).

(** Once a question is deleted from the bank, an answer to it in a
    running attempt is not recorded: the reply is "Server error" and the
    state stays as it is. *)
Theorem answer_to_deleted_question_is_lost (staff u : User)
    (id questionId : string) (now : Z) (answer : JsAnswer) (st st1 : State)
    (t : Attempt) (a : Assessment) (slot : AnswerSlot) :
  deleteQuestion staff questionId st = (st1, Ok tt) →
  attempts st !! id = Some t → at_user t = userId u → at_status t = InProgress →
  assessments st !! at_assessment t = Some a →
  now ≤ at_startTime t + a_duration a * 60000 →
  slot ∈ at_answers t → ans_question slot = questionId →
  submitAnswer now u id questionId answer st1 = (st1, Fail ServerError).
Proof.
  intros Hdel Ht Hu Hs Ha Hin Hslot Hq.
  assert (st1 = set_questions (delete questionId) st) as ->.
  { revert Hdel. unfold deleteQuestion. repeat case_match; congruence. }
  unfold submitAnswer. simpl.
  rewrite Ht, (eqb_user _ _ Hu), Hs, Ha. simpl. unfold timeLimit.
  destruct (Z.ltb_spec (at_startTime t + a_duration a * 60000) now); [lia |].
  destruct (proj2 (findIndex_Some_iff questionId (at_answers t))) as [i ->]; [eauto |].
  by rewrite lookup_delete_eq.
Qed.

Lemma answer_to_deleted_question_is_lost_witness :
  submitAnswer 3000 Samples.alice "at1" "q1" (AnsAtom (JStr "b"))
    (deleteQuestion Samples.teacher "q1" Samples.started).1
  = ((deleteQuestion Samples.teacher "q1" Samples.started).1, Fail ServerError).
Proof.
  apply (answer_to_deleted_question_is_lost Samples.teacher Samples.alice "at1" "q1"
           3000 (AnsAtom (JStr "b")) Samples.started _
           {| at_assessment := "a1"; at_user := "u1"; at_startTime := 1000;
              at_endTime := None; at_completionTime := None;
              at_answers := [newSlot {| aq_question := "q1"; aq_points := Some 5 |}];
              at_totalScore := 0; at_maxPossibleScore := 5;
              at_status := InProgress; at_proctorEvents := [] |}
           Samples.quiz (newSlot {| aq_question := "q1"; aq_points := Some 5 |})).
  - vm_compute. reflexivity.
  - vm_compute. reflexivity.
  - reflexivity.
  - reflexivity.
  - vm_compute. reflexivity.
  - vm_compute. discriminate.
  - apply list_elem_of_here.
  - reflexivity.
Defined.



Lemma finishAttempt_ok now u id st st' r :
  finishAttempt now u id st = (st', Ok r) →
  ∃ t a, attempts st !! id = Some t ∧ at_user t = userId u
         ∧ at_status t = InProgress
         ∧ assessments st !! at_assessment t = Some a.
Proof.
  unfold finishAttempt.
  destruct (attempts st !! id) as [t |] eqn:Ht; [| done].
  destruct (String.eqb_spec (at_user t) (userId u)) as [Hu | Hu]; simpl; [| done].
  destruct (is_in_progress (at_status t)) eqn:Hs; simpl; [| done].
  apply in_progress_status in Hs.
  destruct (assessments st !! at_assessment t) as [a |] eqn:Ha; [| done].
  intros _. by exists t, a.
Qed.

(** The results route agrees with the finish: after an accepted finish,
    the owner reads back the completed attempt with the same total score,
    the same verdict and the same percentage as the finish reported. *)
Theorem results_agree_with_finish (now : Z) (u : User) (id : string)
    (st st' : State) (r : Result) :
  finishAttempt now u id st = (st', Ok r) →
  ∃ rr, getResults u id st' = Ok rr
        ∧ at_status (rr_attempt rr) = Completed
        ∧ at_totalScore (rr_attempt rr) = r_totalScore r
        ∧ rr_passed rr = r_passed r
        ∧ rr_percentage rr = r_percentage r.
Proof.
  intros E. destruct (finishAttempt_ok _ _ _ _ _ _ E) as (t & a & Ht & Hu & Hs & Ha).
  destruct (finishAttempt_in_progress now u id st t Ht Hu Hs) as [E1 E2].
  specialize (E2 a Ha). rewrite E in E1, E2. simpl in E1, E2.
  injection E2 as ->. subst st'.
  unfold getResults. simpl. rewrite lookup_insert_eq. simpl.
  rewrite Ha, (eqb_user _ _ Hu). simpl. by eexists.
Qed.

Lemma results_agree_with_finish_witness :
  ∃ rr, getResults Samples.alice "at1"
          (finishAttempt 5000 Samples.alice "at1" Samples.answered).1 = Ok rr
        ∧ at_status (rr_attempt rr) = Completed
        ∧ at_totalScore (rr_attempt rr) = 10
        ∧ rr_passed rr = true
        ∧ rr_percentage rr = percentage 10 5.
Proof.
  apply (results_agree_with_finish 5000 Samples.alice "at1" Samples.answered _
           {| r_totalScore := 10; r_maxPossibleScore := 5;
              r_percentage := percentage 10 5; r_passed := true;
              r_completionTime := Qmake 4000 1000 |}).
  vm_compute. reflexivity.
Defined.

(** The cache: a finish removes the record of its attempt and no other
    record; an answer, accepted or refused, changes no record, so the
    record of an attempt that is timed out stays in the cache. *)
Theorem cache_records_of_attempts (st : State) (u : User) (id : string) (now : Z) :
  (∀ st' r, finishAttempt now u id st = (st', Ok r) →
            redis st' !! cacheKey id = None
            ∧ ∀ id', id' ≠ id → redis st' !! cacheKey id' = redis st !! cacheKey id')
  ∧ (∀ questionId answer,
       redis (submitAnswer now u id questionId answer st).1 = redis st).
Proof.
  split.
  - intros st' r E.
    destruct (finishAttempt_ok _ _ _ _ _ _ E) as (t & a & Ht & Hu & Hs & Ha).
    destruct (finishAttempt_in_progress now u id st t Ht Hu Hs) as [E1 _].
    rewrite E in E1. simpl in E1. subst st'. simpl. split.
    + apply lookup_delete_eq.
    + intros id' Hne. apply lookup_delete_ne. intros H.
      by apply cacheKey_inj in H.
  - intros questionId answer. unfold submitAnswer. by repeat case_match.
Qed.

Lemma cache_records_of_attempts_witness :
  redis (finishAttempt 5000 Samples.alice "at1" Samples.answered).1
    !! cacheKey "at1" = None
  ∧ redis (submitAnswer 700000 Samples.alice "at1" "q1" AnsUndefined
             Samples.answered).1 = redis Samples.answered.
Proof.
  destruct (cache_records_of_attempts Samples.answered Samples.alice "at1" 5000)
    as [Hfinish _].
  destruct (cache_records_of_attempts Samples.answered Samples.alice "at1" 700000)
    as [_ Hsubmit].
  split; [| apply Hsubmit].
  eapply (proj1 (Hfinish _ {| r_totalScore := 10; r_maxPossibleScore := 5;
                               r_percentage := percentage 10 5; r_passed := true;
                               r_completionTime := Qmake 4000 1000 |} _)).
  Unshelve. vm_compute. reflexivity.
Defined.


End BankAndResults.

End AssessmentProofs.

(** * Properties of binary64 addition *)

Module BinaryProofs.

Import Binary.

Section Rounding.

Variables prec emax : Z.
Hypothesis prec_pos : 0 < prec.

Abbreviation fexp := (SpecFloat.fexp prec emax).
Abbreviation shift_of := (Binary.shift_of prec emax).
Abbreviation emin := (SpecFloat.emin prec emax).

Lemma digits2_log2 (p : positive) : Zpos (digits2_pos p) = Z.log2 (Zpos p) + 1.
Proof.
  assert (forall q, digits2_pos q = Pos.size q) as E.
  { induction q; simpl; congruence. }
  rewrite E. destruct p; simpl; lia.
Qed.

Lemma digits2_bounds (p : positive) :
  2 ^ (Zpos (digits2_pos p) - 1) <= Zpos p < 2 ^ Zpos (digits2_pos p).
Proof.
  rewrite digits2_log2.
  replace (Z.log2 (Zpos p) + 1 - 1) with (Z.log2 (Zpos p)) by lia.
  apply (Z.log2_spec (Zpos p)). lia.
Qed.

Lemma digits2_mono (p q : positive) :
  (p <= q)%positive -> Zpos (digits2_pos p) <= Zpos (digits2_pos q).
Proof.
  intros H. rewrite !digits2_log2.
  pose proof (Z.log2_le_mono (Zpos p) (Zpos q)). lia.
Qed.

Lemma digits2_shift (p q : positive) (k : Z) :
  0 <= k -> Zpos q = Zpos p * 2 ^ k ->
  Zpos (digits2_pos q) = Zpos (digits2_pos p) + k.
Proof.
  intros Hk E. rewrite !digits2_log2, E.
  rewrite Z.log2_mul_pow2 by lia. lia.
Qed.

Lemma iter_xO (m d : positive) : Zpos (Pos.iter xO m d) = Zpos m * 2 ^ Zpos d.
Proof.
  induction d as [| d IH] using Pos.peano_ind.
  - simpl. lia.
  - rewrite Pos.iter_succ, Pos2Z.inj_xO, IH, Pos2Z.inj_succ, Z.pow_succ_r by lia. lia.
Qed.

Lemma shl_align_down (m : positive) (e e' : Z) :
  e' <= e -> Zpos (fst (shl_align m e e')) = Zpos m * 2 ^ (e - e').
Proof.
  intros H. unfold shl_align.
  destruct (e' - e) as [| d | d] eqn:E; simpl.
  - replace (e - e') with 0 by lia. simpl. lia.
  - lia.
  - rewrite iter_xO. replace (e - e') with (Zpos d) by lia. reflexivity.
Qed.

Lemma shl_align_up (m : positive) (e e' : Z) :
  e <= e' -> shl_align m e e' = (m, e).
Proof.
  intros H. unfold shl_align. destruct (e' - e) eqn:E; try reflexivity. lia.
Qed.

Lemma shr_1_m (r : shr_record) :
  0 <= shr_m r -> shr_m (shr_1 r) = shr_m r / 2.
Proof.
  destruct r as [m a b]. cbn [shr_m]. intros H.
  destruct m as [| [p | p |] | p]; cbn [shr_1 shr_m]; try lia.
  - reflexivity.
  - apply (Z.div_unique (Zpos p~1) 2 (Zpos p) 1); lia.
  - apply (Z.div_unique (Zpos p~0) 2 (Zpos p) 0); lia.
  - reflexivity.
Qed.

Lemma pow2_xO (p : positive) : 2 ^ Zpos p~0 = 2 ^ Zpos p * 2 ^ Zpos p.
Proof.
  replace (Zpos p~0) with (Zpos p + Zpos p) by lia. apply Z.pow_add_r; lia.
Qed.

Lemma pow2_xI (p : positive) : 2 ^ Zpos p~1 = 2 * (2 ^ Zpos p * 2 ^ Zpos p).
Proof.
  replace (Zpos p~1) with (1 + (Zpos p + Zpos p)) by lia.
  rewrite !Z.pow_add_r by lia. reflexivity.
Qed.

Lemma iter_shr_m (p : positive) (r : shr_record) :
  0 <= shr_m r -> shr_m (SpecFloat.iter_pos shr_1 p r) = shr_m r / 2 ^ Zpos p.
Proof.
  revert r. induction p as [p IH | p IH |]; intros r H; cbn [SpecFloat.iter_pos].
  - assert (0 <= shr_m (shr_1 r)) as H1.
    { rewrite shr_1_m by assumption. apply Z.div_pos; lia. }
    assert (0 <= shr_m (SpecFloat.iter_pos shr_1 p (shr_1 r))) as H2.
    { rewrite IH by assumption. apply Z.div_pos; lia. }
    rewrite IH, IH, shr_1_m by assumption.
    rewrite !Z.div_div by lia. rewrite pow2_xI. reflexivity.
  - assert (0 <= shr_m (SpecFloat.iter_pos shr_1 p r)) as H2.
    { rewrite IH by assumption. apply Z.div_pos; lia. }
    rewrite IH, IH by assumption.
    rewrite !Z.div_div by lia. rewrite pow2_xO. reflexivity.
  - rewrite shr_1_m by assumption. reflexivity.
Qed.

Lemma shr_record_of_loc_m (m : Z) (l : location) : shr_m (shr_record_of_loc m l) = m.
Proof. destruct l as [| []]; reflexivity. Qed.

Lemma shr_fexp_spec (m e : Z) (l : location) :
  0 <= m ->
  shr_m (fst (shr_fexp prec emax m e l)) = m / 2 ^ shift_of m e
  /\ snd (shr_fexp prec emax m e l) = e + shift_of m e.
Proof.
  intros H. unfold shr_fexp, shr, shift_of.
  destruct (fexp (Zdigits2 m + e) - e) as [| p | p] eqn:E; cbn [fst snd].
  - rewrite shr_record_of_loc_m. simpl. rewrite Z.div_1_r. lia.
  - rewrite iter_shr_m by (rewrite shr_record_of_loc_m; assumption).
    rewrite shr_record_of_loc_m. rewrite Z.max_r by lia. split; reflexivity.
  - rewrite shr_record_of_loc_m. rewrite Z.max_l by lia.
    simpl. rewrite Z.div_1_r. lia.
Qed.

Lemma round_nearest_even_bounds (m : Z) (l : location) :
  m <= round_nearest_even m l <= m + 1.
Proof. destruct l as [| []]; simpl; try destruct (Z.even m); lia. Qed.

Lemma Zdigits2_pos (m : Z) : 0 < m -> 2 ^ (Zdigits2 m - 1) <= m /\ 0 < Zdigits2 m.
Proof.
  destruct m as [| p | p]; try lia. intros _. simpl.
  split; [apply digits2_bounds | lia].
Qed.

(** A positive mantissa stays positive under the shift of [shr_fexp]. *)
Lemma shift_positive (m e : Z) :
  0 < m -> emin <= e -> 0 < m / 2 ^ shift_of m e.
Proof.
  intros Hm He. unfold shift_of, SpecFloat.fexp.
  destruct (Zdigits2_pos m Hm) as [Hd Hd0].
  destruct (Z.max_spec 0 (Z.max (Zdigits2 m + e - prec) emin - e)) as [[H1 ->] | [H1 ->]].
  - assert (Z.max (Zdigits2 m + e - prec) emin - e = Zdigits2 m - prec) as -> by lia.
    assert (0 <= Zdigits2 m - prec) by lia.
    apply Z.lt_le_trans with (2 ^ (prec - 1)); [apply Z.pow_pos_nonneg; lia |].
    apply Z.div_le_lower_bound; [apply Z.pow_pos_nonneg; lia |].
    rewrite <- Z.pow_add_r by lia.
    replace (Zdigits2 m - prec + (prec - 1)) with (Zdigits2 m - 1) by lia. exact Hd.
  - simpl. rewrite Z.div_1_r. exact Hm.
Qed.

(** [binary_round_aux] on a positive mantissa: an infinity, or the
    mantissa shifted, rounded up or not, and shifted again. *)
Lemma binary_round_aux_pos (s : bool) (m e : Z) (l : location) :
  0 < m -> emin <= e ->
  exists m2 : Z,
    m / 2 ^ shift_of m e <= m2 <= m / 2 ^ shift_of m e + 1
    /\ 0 < m2 / 2 ^ shift_of m2 (e + shift_of m e)
    /\ (binary_round_aux prec emax s m e l = S754_infinity s
        \/ binary_round_aux prec emax s m e l
           = S754_finite s (Z.to_pos (m2 / 2 ^ shift_of m2 (e + shift_of m e)))
               (e + shift_of m e + shift_of m2 (e + shift_of m e))).
Proof.
  intros Hm He. unfold binary_round_aux.
  destruct (shr_fexp_spec m e l) as [E1 E2]; [lia |].
  destruct (shr_fexp prec emax m e l) as [r1 e1]. cbn [fst snd] in E1, E2.
  set (m2 := round_nearest_even (shr_m r1) (loc_of_shr_record r1)).
  pose proof (round_nearest_even_bounds (shr_m r1) (loc_of_shr_record r1)) as Hm2.
  fold m2 in Hm2. rewrite E1 in Hm2.
  pose proof (shift_positive m e Hm He) as Hp1.
  assert (emin <= e1) as He1 by (unfold shift_of in E2; lia).
  pose proof (shift_positive m2 e1 ltac:(lia) He1) as Hp2.
  destruct (shr_fexp_spec m2 e1 loc_Exact) as [E3 E4]; [lia |].
  destruct (shr_fexp prec emax m2 e1 loc_Exact) as [r3 e3]. cbn [fst snd] in E3, E4.
  exists m2. subst e1. split; [exact Hm2 |]. split; [exact Hp2 |].
  rewrite E3. destruct (m2 / 2 ^ shift_of m2 (e + shift_of m e)) as [| p | p] eqn:E;
    try lia.
  destruct (e3 <=? emax - prec); [right | left]; [| reflexivity].
  subst e3. reflexivity.
Qed.

Lemma fexp_mono (a b : Z) : a <= b -> fexp a <= fexp b.
Proof. unfold SpecFloat.fexp. lia. Qed.

Lemma bounded_exp (m : positive) (e : Z) :
  bounded prec emax m e = true ->
  fexp (Zpos (digits2_pos m) + e) = e /\ emin <= e.
Proof.
  unfold bounded, canonical_mantissa. intros H.
  apply andb_prop in H as [H _]. apply Z.eqb_eq in H.
  split; [exact H |]. rewrite <- H. unfold SpecFloat.fexp. lia.
Qed.

(** The sum of two positive finite numbers is an infinity or a finite
    number that compares above the first one. *)
Lemma SFadd_finite_above (mx my : positive) (ex ey : Z) :
  bounded prec emax mx ex = true -> bounded prec emax my ey = true ->
  SFadd prec emax (S754_finite false mx ex) (S754_finite false my ey)
    = S754_infinity false
  \/ exists m e,
       SFadd prec emax (S754_finite false mx ex) (S754_finite false my ey)
         = S754_finite false m e
       /\ (ex < e \/ (e = ex /\ (mx <= m)%positive)).
Proof.
  intros Hx Hy.
  destruct (bounded_exp mx ex Hx) as [Cx Ex], (bounded_exp my ey Hy) as [Cy Ey].
  unfold SFadd. cbn [cond_Zopp]. set (ez := Z.min ex ey).
  pose proof (shl_align_down mx ex ez ltac:(lia)) as Ha.
  pose proof (shl_align_down my ey ez ltac:(lia)) as Hb.
  set (a := fst (shl_align mx ex ez)) in *.
  set (b := fst (shl_align my ey ez)) in *.
  change (Z.pos a + Z.pos b) with (Z.pos (a + b)).
  cbn [binary_normalize]. unfold binary_round.
  assert (Zpos (digits2_pos mx) + (ex - ez) <= Zpos (digits2_pos (a + b))) as Hd.
  { rewrite <- (digits2_shift mx a (ex - ez)) by (lia || assumption).
    apply digits2_mono. lia. }
  assert (ex <= fexp (Zpos (digits2_pos (a + b)) + ez)) as HF.
  { rewrite <- Cx at 1. apply fexp_mono. lia. }
  rewrite shl_align_up by lia.
  destruct (binary_round_aux_pos false (Zpos (a + b)) ez loc_Exact)
    as (m2 & Hm2 & Hp & [E | E]); [lia | lia | left; exact E |].
  right. rewrite E. eexists _, _. split; [reflexivity |].
  assert (shift_of (Zpos (a + b)) ez = fexp (Zpos (digits2_pos (a + b)) + ez) - ez)
    as Hs1 by (unfold shift_of; cbn [Zdigits2]; lia).
  rewrite Hs1 in *.
  set (F := fexp (Zpos (digits2_pos (a + b)) + ez)) in *.
  assert (0 <= shift_of m2 (ez + (F - ez))) as Hs2 by (unfold shift_of; lia).
  destruct (Z.eq_dec (ez + (F - ez) + shift_of m2 (ez + (F - ez))) ex) as [Heq | Hne];
    [right | left; lia].
  split; [exact Heq |].
  assert (F = ex) as HFe by lia.
  assert (shift_of m2 (ez + (F - ez)) = 0) as Hz by lia.
  rewrite Hz in *. change (2 ^ 0) with 1 in *. rewrite Z.div_1_r in *.
  assert (Zpos mx <= Zpos (a + b) / 2 ^ (F - ez)) as Hlow.
  { apply Z.div_le_lower_bound; [apply Z.pow_pos_nonneg; lia |].
    rewrite HFe, Z.mul_comm, <- Ha. lia. }
  change (Zpos mx <= Zpos (Z.to_pos m2)). rewrite Z2Pos.id by lia. lia.
Qed.

Lemma SFleb_above (mx m : positive) (ex e : Z) :
  ex < e \/ (e = ex /\ (mx <= m)%positive) ->
  SFleb (S754_finite false mx ex) (S754_finite false m e) = true.
Proof.
  unfold SFleb, SFcompare. intros [H | [-> H]].
  - apply Z.compare_lt_iff in H. rewrite H. reflexivity.
  - rewrite Z.compare_refl. change (Pos.compare_cont Eq mx m) with (mx ?= m)%positive.
    unfold Pos.le in H. destruct (mx ?= m)%positive; congruence.
Qed.

Lemma SFleb_finite (m1 m2 : positive) (e1 e2 : Z) :
  SFleb (S754_finite false m1 e1) (S754_finite false m2 e2) = true
  <-> e1 < e2 \/ (e1 = e2 /\ (m1 <= m2)%positive).
Proof.
  split; [| intros [H | [-> H]]; apply SFleb_above; auto].
  unfold SFleb, SFcompare.
  destruct (Z.compare_spec e1 e2) as [-> | H | H]; try (intros; lia || discriminate).
  change (Pos.compare_cont Eq m1 m2) with (m1 ?= m2)%positive.
  intros E. right. split; [reflexivity |].
  unfold Pos.le. destruct (m1 ?= m2)%positive; congruence.
Qed.

(** The order of [SFleb] is transitive on numbers that are not negative. *)
Lemma SFleb_trans (x y z : spec_float) :
  nonneg x = true -> nonneg y = true -> nonneg z = true ->
  SFleb x y = true -> SFleb y z = true -> SFleb x z = true.
Proof.
  destruct x as [sx | [] | | [] mx ex], y as [sy | [] | | [] my ey],
    z as [sz | [] | | [] mz ez]; try discriminate; try reflexivity.
  intros _ _ _. rewrite !SFleb_finite. lia.
Qed.

Lemma nonneg_leb (x : spec_float) : SFleb (S754_zero false) x = nonneg x.
Proof. destruct x as [s | [] | | [] m e]; reflexivity. Qed.

(** Adding a number that is not negative never gives less. *)
Lemma SFadd_nonneg (x y : spec_float) :
  SpecFloat.valid_binary prec emax x = true ->
  SpecFloat.valid_binary prec emax y = true ->
  nonneg x = true -> nonneg y = true ->
  SFleb x (SFadd prec emax x y) = true /\ nonneg (SFadd prec emax x y) = true.
Proof.
  intros Vx Vy Nx Ny.
  destruct x as [sx | [] | | [] mx ex], y as [sy | [] | | [] my ey];
    try discriminate; cbn [SpecFloat.valid_binary] in Vx, Vy.
  - destruct sx, sy; split; reflexivity.
  - destruct sx; split; reflexivity.
  - destruct sx; split; reflexivity.
  - split; reflexivity.
  - split; reflexivity.
  - split; reflexivity.
  - cbn [SFadd nonneg negb]. split; [| reflexivity].
    apply SFleb_above. right. split; [reflexivity | apply Pos.le_refl].
  - split; reflexivity.
  - destruct (SFadd_finite_above mx my ex ey Vx Vy) as [-> | (m & e & -> & H)].
    + split; reflexivity.
    + split; [apply SFleb_above; exact H | reflexivity].
Qed.

End Rounding.

(** On doubles: adding a number that is not negative to a number that is
    not negative gives a number that is not less and not negative. *)
Lemma add_nonneg (x w : float) :
  (0 <=? x)%float = true → (0 <=? w)%float = true →
  (x <=? x + w)%float = true ∧ (0 <=? x + w)%float = true.
Proof.
  rewrite !leb_spec, add_spec.
  change (Prim2SF 0) with (S754_zero false). rewrite !nonneg_leb.
  intros Hx Hw. apply SFadd_nonneg; auto using Prim2SF_valid. reflexivity.
Qed.

End BinaryProofs.

(** * Properties of the proctor service *)

Module ProctorProofs.

Import ProctorService.

(** ** One active session for an attempt and a user *)

Section ActiveSessions.

Implicit Types (st : State) (r : Request) (s : ProctorSession).

Lemma matchesActive_true attemptId uid s :
  matchesActive attemptId uid s = true
  ↔ s_attemptId s = attemptId ∧ s_userId s = uid ∧ s_status s = Active.
Proof.
  unfold matchesActive. rewrite !andb_true_iff, !String.eqb_eq.
  destruct (s_status s); simpl; intuition congruence.
Qed.

(** The query finds a session exactly when the store holds an active one
    for the attempt and the user. *)
Lemma findOneActive_None attemptId uid (m : gmap string ProctorSession) :
  findOneActive attemptId uid m = None
  ↔ ∀ k s, m !! k = Some s → matchesActive attemptId uid s = false.
Proof.
  unfold findOneActive. split.
  - intros H k s Hk.
    apply (find_none _ _ H (k, s)), list_elem_of_In, elem_of_map_to_list, Hk.
  - intros H. destruct (List.find _ _) as [[k s] |] eqn:E; [| done].
    apply find_some in E as [Hin Hm]. simpl in Hm.
    apply list_elem_of_In, elem_of_map_to_list in Hin.
    by rewrite (H k s Hin) in Hm.
Qed.

Lemma startSession_refused now newId u attemptId assessmentId settings st k s :
  sessions st !! k = Some s → s_status s = Active →
  s_attemptId s = attemptId → s_userId s = userId u →
  startSession now newId u attemptId assessmentId settings st
  = (st, Fail SessionAlreadyActive).
Proof.
  intros Hk Hs Ha Hu. unfold startSession.
  destruct (findOneActive _ _ _) eqn:E; [done |].
  pose proof (proj1 (findOneActive_None _ _ _) E k s Hk) as Hm.
  by rewrite (proj2 (matchesActive_true _ _ _)) in Hm.
Qed.

(** Rewriting a session in place keeps the invariant when the attempt
    and the user stay and the session is not made active. *)
Lemma uniqueActive_rewrite st (m' : gmap string ProctorSession) k s s' :
  uniqueActive st → sessions st !! k = Some s →
  m' = <[k := s']> (sessions st) →
  s_attemptId s' = s_attemptId s → s_userId s' = s_userId s →
  (s_status s' = Active → s_status s = Active) →
  ∀ ev kf, uniqueActive {| sessions := m'; events := ev; kafka := kf |}.
Proof.
  intros Hinv Hk -> Ha Hu Hs ev kf i j si sj. simpl.
  assert (∀ i si, <[k := s']> (sessions st) !! i = Some si →
            ∃ si0, sessions st !! i = Some si0
                   ∧ s_attemptId si = s_attemptId si0
                   ∧ s_userId si = s_userId si0
                   ∧ (s_status si = Active → s_status si0 = Active)) as Hold.
  { intros i0 si0. destruct (decide (k = i0)) as [<- | Hne].
    - rewrite lookup_insert_eq. intros [= <-]. by exists s.
    - rewrite lookup_insert_ne by done. intros. by exists si0. }
  intros Hi Hj Hsi Hsj Hatt Husr.
  destruct (Hold i si Hi) as (si0 & Hi0 & Hai & Hui & Hsi0).
  destruct (Hold j sj Hj) as (sj0 & Hj0 & Haj & Huj & Hsj0).
  apply (Hinv i j si0 sj0); auto; congruence.
Qed.

Lemma uniqueActive_handle r st : uniqueActive st → uniqueActive (handle r st).
Proof.
  intros Hinv. destruct r as [now newId u attemptId assessmentId settings
                             | now u id | now newId u body]; simpl.
  - unfold startSession.
    destruct (findOneActive _ _ _) eqn:E; [done |].
    destruct (sessions st !! newId) eqn:Hnew; [done |]. simpl.
    pose proof (proj1 (findOneActive_None _ _ _) E) as Hnone.
    intros i j si sj. simpl.
    destruct (decide (newId = i)) as [<- | Hi], (decide (newId = j)) as [<- | Hj];
      [done | | |].
    + rewrite lookup_insert_eq, lookup_insert_ne by done.
      intros [= <-] Hsj _ Hact Hatt Husr. simpl in *.
      pose proof (Hnone j sj Hsj) as Hm.
      rewrite (proj2 (matchesActive_true _ _ _)) in Hm; [done | auto].
    + rewrite lookup_insert_ne, lookup_insert_eq by done.
      intros Hsi [= <-] Hact _ Hatt Husr. simpl in *.
      pose proof (Hnone i si Hsi) as Hm.
      rewrite (proj2 (matchesActive_true _ _ _)) in Hm; [done | auto].
    + rewrite !lookup_insert_ne by done. apply Hinv.
  - unfold endSession.
    destruct (sessions st !! id) as [s |] eqn:Hid; [| done].
    repeat case_match; simpl; try done.
    by eapply (uniqueActive_rewrite st _ id s).
  - unfold recordEvent.
    destruct (sessions st !! b_sessionId body) as [s |] eqn:Hid; [| done].
    repeat case_match; simpl; try done.
    by eapply (uniqueActive_rewrite st _ (b_sessionId body) s).
Qed.

Lemma uniqueActive_run rs st : uniqueActive st → uniqueActive (run rs st).
Proof.
  revert st. induction rs as [| r rs IH]; intros st Hinv; simpl; [done |].
  by apply IH, uniqueActive_handle.
Qed.

Lemma uniqueActive_empty : uniqueActive empty.
Proof. intros i j si sj Hi. simpl in Hi. by rewrite lookup_empty in Hi. Qed.



End ActiveSessions.

(** ** The anomaly score *)

Section AnomalyScore.

Implicit Types (st : State) (r : Request) (s : ProctorSession).

Lemma oneOf_elem (l : list string) (x : string) : oneOf l x = true → x ∈ l.
Proof.
  unfold oneOf. rewrite existsb_exists. intros (y & Hy & E).
  apply String.eqb_eq in E. subst y. by apply list_elem_of_In.
Qed.

(** What a recorded event does to its session. *)
Lemma recordEvent_ok now newId u body st st' id :
  recordEvent now newId u body st = (st', Ok id) →
  ∃ s e,
    sessions st !! b_sessionId body = Some s ∧ s_status s = Active
    ∧ e_severity e = default "medium" (b_severity body)
    ∧ e_severity e ∈ severities
    ∧ sessions st' = <[b_sessionId body := withEvent e s]> (sessions st).
Proof.
  unfold recordEvent.
  destruct (sessions st !! b_sessionId body) as [s |] eqn:Hs; [| done].
  destruct (negb (s_userId s =? userId u)%string); [done |].
  destruct (negb (is_active (s_status s))) eqn:Ha; [done |].
  destruct (b_type body) as [type |]; [| done].
  destruct (events st !! newId); [done |].
  destruct (oneOf eventTypes type && oneOf severities _) eqn:Hv; [| done].
  intros [= <- <-]. apply andb_prop in Hv as [_ Hv].
  eexists s, _. do 4 (split; [shelve |]). reflexivity.
  Unshelve.
  - done.
  - destruct (s_status s); simpl in Ha; congruence.
  - reflexivity.
  - by apply oneOf_elem.
Qed.

Lemma severityValue_nonneg (severity : string) :
  (0 <=? severityValue severity)%float = true.
Proof. unfold severityValue. by repeat case_match. Qed.

(** A request leaves a session under its id and can only append to its
    events; the score moves by the weights of what was appended. *)
Lemma handle_session_kept r st k s :
  sessions st !! k = Some s →
  ∃ s' (new : list ProctorEvent),
    sessions (handle r st) !! k = Some s'
    ∧ s_events s' = (s_events s ++ new)%list
    ∧ Forall (λ e, e_severity e ∈ severities) new
    ∧ s_anomalyScore s' = accumulate (s_anomalyScore s) new.
Proof.
  intros Hk.
  assert (∃ s' (new : list ProctorEvent), Some s = Some s' ∧ s_events s' = (s_events s ++ new)%list
            ∧ Forall (λ e, e_severity e ∈ severities) new
            ∧ s_anomalyScore s' = accumulate (s_anomalyScore s) new) as Hsame.
  { exists s, []. by rewrite app_nil_r. }
  destruct r as [now newId u attemptId assessmentId settings
                | now u id | now newId u body]; simpl.
  - unfold startSession. repeat case_match; simpl; rewrite ?Hk; try done.
    rewrite lookup_insert_ne by congruence. by rewrite Hk.
  - unfold endSession.
    destruct (sessions st !! id) as [s0 |] eqn:Hid; [| simpl; by rewrite Hk].
    repeat case_match; simpl; rewrite ?Hk; try done.
    destruct (decide (id = k)) as [-> | Hne].
    + rewrite lookup_insert_eq. assert (s0 = s) as -> by congruence.
      exists (endedSession now s), []. by rewrite app_nil_r.
    + rewrite lookup_insert_ne by done. by rewrite Hk.
  - destruct (recordEvent now newId u body st) as [st' [id |]] eqn:E; simpl.
    + destruct (recordEvent_ok _ _ _ _ _ _ _ E) as (s0 & e & Hs0 & _ & _ & Hsev & ->).
      destruct (decide (b_sessionId body = k)) as [Heq | Hne].
      * rewrite Heq in *. rewrite lookup_insert_eq.
        assert (s0 = s) as -> by congruence.
        exists (withEvent e s), [e]. repeat split. by apply Forall_singleton.
      * rewrite lookup_insert_ne by done. by rewrite Hk.
    + assert (st' = st) as ->; [| by rewrite Hk].
      revert E. unfold recordEvent. repeat case_match; congruence.
Qed.

Lemma accumulate_app (score : float) (l k : list ProctorEvent) :
  accumulate score (l ++ k)%list = accumulate (accumulate score l) k.
Proof. apply fold_left_app. Qed.

Lemma run_session_kept rs st k s :
  sessions st !! k = Some s →
  ∃ s' (new : list ProctorEvent),
    sessions (run rs st) !! k = Some s'
    ∧ s_events s' = (s_events s ++ new)%list
    ∧ Forall (λ e, e_severity e ∈ severities) new
    ∧ s_anomalyScore s' = accumulate (s_anomalyScore s) new.
Proof.
  revert st s. induction rs as [| r rs IH]; intros st s Hk; simpl.
  - exists s, []. by rewrite app_nil_r.
  - destruct (handle_session_kept r st k s Hk) as (s1 & new1 & H1 & He1 & Hf1 & Hs1).
    destruct (IH _ _ H1) as (s2 & new2 & H2 & He2 & Hf2 & Hs2).
    exists s2, (new1 ++ new2)%list. split; [done |]. split; [| split].
    + by rewrite He2, He1, app_assoc.
    + by apply Forall_app.
    + by rewrite Hs2, Hs1, accumulate_app.
Qed.

(** The score never goes down and never becomes negative, whatever is
    appended. *)
Lemma accumulate_above (score : float) (evs : list ProctorEvent) :
  (0 <=? score)%float = true →
  (score <=? accumulate score evs)%float = true
  ∧ (0 <=? accumulate score evs)%float = true.
Proof.
  revert score. induction evs as [| e evs IH]; intros score H0; simpl.
  - split; [| done]. rewrite leb_spec in *.
    destruct (Prim2SF score) as [? | [] | | [] m x]; try done.
    apply BinaryProofs.SFleb_above. right. split; [done | apply Pos.le_refl].
  - destruct (BinaryProofs.add_nonneg score (severityValue (e_severity e)) H0
                (severityValue_nonneg _)) as [H1 H2].
    destruct (IH _ H2) as [H3 H4]. split; [| done].
    rewrite leb_spec in *. change (Prim2SF 0) with (S754_zero false) in *.
    rewrite BinaryProofs.nonneg_leb in *.
    exact (BinaryProofs.SFleb_trans _ _ _ H0 H2 H4 H1 H3).
Qed.




End AnomalyScore.

(** ** Sessions over a run *)

Section Sessions.

Import ProctorInvariants.

Implicit Types (st : State) (r : Request) (s : ProctorSession).

Lemma active_status s : is_active (s_status s) = true ↔ s_status s = Active.
Proof. by destruct (s_status s). Qed.

(** A session that is not active is not changed by any request. *)
Lemma handle_session_frozen r st k s :
  sessions st !! k = Some s → s_status s ≠ Active →
  sessions (handle r st) !! k = Some s.
Proof.
  intros Hk Hs.
  destruct r as [now newId u attemptId assessmentId settings
                | now u id | now newId u body]; simpl.
  - unfold startSession. repeat case_match; simpl; try done.
    rewrite lookup_insert_ne; [done | congruence].
  - unfold endSession.
    destruct (sessions st !! id) as [s0 |] eqn:Hid; [| done].
    destruct (negb _); [done |].
    destruct (is_active (s_status s0)) eqn:Ha; simpl; [| done].
    apply active_status in Ha.
    rewrite lookup_insert_ne; [done | congruence].
  - unfold recordEvent.
    destruct (sessions st !! b_sessionId body) as [s0 |] eqn:Hid; [| done].
    destruct (negb _); [done |].
    destruct (is_active (s_status s0)) eqn:Ha; simpl; [| done].
    apply active_status in Ha.
    repeat case_match; simpl; try done.
    rewrite lookup_insert_ne; [done | congruence].
Qed.

Lemma endSession_ok now u id st st' reply :
  endSession now u id st = (st', Ok reply) →
  ∃ s, sessions st !! id = Some s ∧ s_userId s = userId u ∧ s_status s = Active
       ∧ sessions st' = <[id := endedSession now s]> (sessions st)
       ∧ events st' = events st.
Proof.
  unfold endSession.
  destruct (sessions st !! id) as [s |] eqn:Hid; [| done].
  destruct (String.eqb_spec (s_userId s) (userId u)); simpl; [| done].
  destruct (is_active (s_status s)) eqn:Ha; simpl; [| done].
  apply active_status in Ha. intros [= <- _]. by exists s.
Qed.

(** Ending a session is final: it is stored as completed with the end
    time of the request, and after any further requests it still has
    that status and end time, the same events and the same score; events
    sent to it are refused with "Session is not active". *)
Theorem ended_session_is_frozen (now : Z) (u : User) (id : string)
    (st st' : State) (reply : string) (rs : list Request) :
  endSession now u id st = (st', Ok reply) →
  ∃ s, sessions st !! id = Some s
       ∧ sessions (run rs st') !! id = Some (endedSession now s)
       ∧ s_status (endedSession now s) = Completed
       ∧ s_endTime (endedSession now s) = Some now
       ∧ s_events (endedSession now s) = s_events s
       ∧ s_anomalyScore (endedSession now s) = s_anomalyScore s
       ∧ ∀ now' newId body,
           b_sessionId body = id →
           recordEvent now' newId u body (run rs st')
           = (run rs st', Fail SessionNotActive).
Proof.
  intros E. destruct (endSession_ok _ _ _ _ _ _ E) as (s & Hs & Hu & Ha & Hst & _).
  exists s. split; [done |].
  assert (sessions (run rs st') !! id = Some (endedSession now s)) as Hrun.
  { assert (sessions st' !! id = Some (endedSession now s)) as H0.
    { rewrite Hst. apply lookup_insert_eq. }
    clear E Hst. revert st' H0.
    induction rs as [| r rs IH]; intros st' H0; simpl; [done |].
    apply IH. by apply handle_session_frozen. }
  repeat split; try done.
  intros now' newId body <-. unfold recordEvent. rewrite Hrun. simpl.
  rewrite Hu, String.eqb_refl. done.
Qed.

Lemma ended_session_is_frozen_witness :
  ∃ s, sessions Samples.threeLow !! "s1" = Some s
       ∧ sessions (run [RecordEvent 6000 "e4" Samples.alice Samples.lowEvent]
                     (endSession 5000 Samples.alice "s1" Samples.threeLow).1)
           !! "s1" = Some (endedSession 5000 s)
       ∧ s_status (endedSession 5000 s) = Completed
       ∧ s_endTime (endedSession 5000 s) = Some 5000
       ∧ s_events (endedSession 5000 s) = s_events s
       ∧ s_anomalyScore (endedSession 5000 s) = s_anomalyScore s
       ∧ ∀ now' newId body,
           b_sessionId body = "s1" →
           recordEvent now' newId Samples.alice body
             (run [RecordEvent 6000 "e4" Samples.alice Samples.lowEvent]
                (endSession 5000 Samples.alice "s1" Samples.threeLow).1)
           = (run [RecordEvent 6000 "e4" Samples.alice Samples.lowEvent]
                (endSession 5000 Samples.alice "s1" Samples.threeLow).1,
              Fail SessionNotActive).
Proof.
  apply (ended_session_is_frozen 5000 Samples.alice "s1" Samples.threeLow _ "s1").
  vm_compute. reflexivity.
Defined.



Lemma eventOk_ext st st' s s' e :
  eventOk st s e →
  s_attemptId s' = s_attemptId s → s_userId s' = s_userId s →
  s_assessmentId s' = s_assessmentId s →
  (∀ id e', events st !! id = Some e' → ∃ id', events st' !! id' = Some e') →
  eventOk st' s' e.
Proof.
  intros (H1 & H2 & H3 & H4 & H5 & id & H6) Ha Hu Has Hev.
  unfold eventOk. rewrite Ha, Hu, Has. repeat split; try done. by eapply Hev.
Qed.

Lemma sessionOk_ext st st' s :
  sessionOk st s →
  (∀ id e', events st !! id = Some e' → ∃ id', events st' !! id' = Some e') →
  sessionOk st' s.
Proof.
  intros (H1 & H2 & H3 & H4) Hev. repeat split; try done; try apply H3.
  eapply Forall_impl; [exact H4 |]. intros e He. by eapply eventOk_ext.
Qed.

(** The event that an accepted request stores. *)
Lemma recordEvent_stored now newId u body st st' id :
  recordEvent now newId u body st = (st', Ok id) →
  ∃ s e,
    sessions st !! b_sessionId body = Some s ∧ events st !! newId = None
    ∧ e_attemptId e = s_attemptId s ∧ e_userId e = s_userId s
    ∧ e_assessmentId e = s_assessmentId s
    ∧ e_severity e ∈ severities ∧ e_type e ∈ eventTypes
    ∧ sessions st' = <[b_sessionId body := withEvent e s]> (sessions st)
    ∧ events st' = <[newId := e]> (events st).
Proof.
  unfold recordEvent.
  destruct (sessions st !! b_sessionId body) as [s |] eqn:Hs; [| done].
  destruct (String.eqb_spec (s_userId s) (userId u)) as [Hu | Hu]; [| done].
  destruct (negb (is_active (s_status s))) eqn:Ha; [done |].
  destruct (b_type body) as [type |]; [| done].
  destruct (events st !! newId) eqn:Hnew; [done |].
  destruct (oneOf eventTypes type && oneOf severities _) eqn:Hv; [| done].
  intros [= <- <-]. apply andb_prop in Hv as [Hv1 Hv2].
  apply oneOf_elem in Hv1, Hv2.
  eexists s, _. do 7 (split; [shelve |]). split; reflexivity.
  Unshelve. all: done.
Qed.

Lemma sessions_wellFormed_handle r st : wellFormed st → wellFormed (handle r st).
Proof.
  intros Hwf.
  destruct r as [now newId u attemptId assessmentId settings
                | now u id | now newId u body]; simpl.
  - unfold startSession. repeat case_match; simpl; try done.
    intros k s. simpl. destruct (decide (newId = k)) as [<- | Hne].
    + rewrite lookup_insert_eq. intros [= <-]. by repeat split.
    + rewrite lookup_insert_ne by done. intros Hk.
      eapply sessionOk_ext; [by eapply Hwf | eauto].
  - destruct (endSession now u id st) as [st' [reply |]] eqn:E; simpl.
    + destruct (endSession_ok _ _ _ _ _ _ E) as (s & Hs & _ & Ha & Hst & Hev).
      intros k sk. rewrite Hst. destruct (decide (id = k)) as [<- | Hne].
      * rewrite lookup_insert_eq. intros [= <-].
        destruct (Hwf id s Hs) as (H1 & H2 & H3 & H4).
        repeat split; try done.
        eapply Forall_impl; [exact H4 |]. intros e He.
        eapply eventOk_ext; eauto. rewrite Hev. eauto.
      * rewrite lookup_insert_ne by done. intros Hk.
        eapply sessionOk_ext; [by eapply Hwf |]. rewrite Hev. eauto.
    + assert (st' = st) as ->; [| done].
      revert E. unfold endSession. repeat case_match; congruence.
  - destruct (recordEvent now newId u body st) as [st' [id |]] eqn:E; simpl.
    + destruct (recordEvent_stored _ _ _ _ _ _ _ E)
        as (s & e & Hs & Hnew & He1 & He2 & He3 & He4 & He5 & Hst & Hev).
      assert (∀ id e', events st !! id = Some e' →
                ∃ id', events st' !! id' = Some e') as Hkeep.
      { intros k e' He. exists k. rewrite Hev, lookup_insert_ne; [done | congruence]. }
      intros k sk. rewrite Hst. destruct (decide (b_sessionId body = k)) as [<- | Hne].
      * rewrite lookup_insert_eq. intros [= <-].
        destruct (Hwf _ s Hs) as (H1 & H2 & H3 & H4).
        split; [| split; [done | split; [done |]]].
        -- simpl. by rewrite accumulate_app, <- H1.
        -- simpl. apply Forall_app. split.
           ++ eapply Forall_impl; [exact H4 |]. intros e' He'.
              by eapply eventOk_ext.
           ++ apply Forall_singleton. unfold eventOk. simpl.
              repeat split; try done.
              exists newId. rewrite Hev. apply lookup_insert_eq.
      * rewrite lookup_insert_ne by done. intros Hk.
        eapply sessionOk_ext; [by eapply Hwf | done].
    + assert (st' = st) as ->; [| done].
      revert E. unfold recordEvent. repeat case_match; congruence.
Qed.

Lemma sessions_wellFormed_run rs st : wellFormed st → wellFormed (run rs st).
Proof.
  revert st. induction rs as [| r rs IH]; intros st H; simpl; [done |].
  by apply IH, sessions_wellFormed_handle.
Qed.



(** An event without a type, or with a type or a severity that the
    schema does not list, is not recorded: the owner of an active session
    gets "Server error" and nothing is stored, so the weight 0 that the
    handler has for other severities is never added. *)
Theorem invalid_event_is_not_recorded (now : Z) (newId : string) (u : User)
    (body : EventBody) (st : State) (s : ProctorSession) :
  sessions st !! b_sessionId body = Some s → s_userId s = userId u →
  s_status s = Active →
  b_type body = None
  ∨ (∃ type, b_type body = Some type ∧ type ∉ eventTypes)
  ∨ default "medium" (b_severity body) ∉ severities →
  recordEvent now newId u body st = (st, Fail ServerError).
Proof.
  intros Hs Hu Ha Hbad. unfold recordEvent.
  rewrite Hs, Hu, String.eqb_refl, Ha. cbn [negb is_active].
  destruct (b_type body) as [type |]; [| done].
  destruct (events st !! newId); [done |].
  destruct (oneOf eventTypes type
              && oneOf severities (default "medium" (b_severity body))) eqn:Hv;
      [| done].
  apply andb_prop in Hv as [Hv1 Hv2].
  apply oneOf_elem in Hv1, Hv2.
  destruct Hbad as [? | [(type' & [= <-] & ?) | ?]]; done.
Qed.

Lemma invalid_event_is_not_recorded_witness :
  recordEvent 2000 "e1" Samples.alice
    {| b_sessionId := "s1"; b_type := Some "tab-switch"; b_details := "";
       b_severity := Some "critical"; b_snapshot := None |} Samples.watched
  = (Samples.watched, Fail ServerError).
Proof.
  apply (invalid_event_is_not_recorded 2000 "e1" Samples.alice
           {| b_sessionId := "s1"; b_type := Some "tab-switch"; b_details := "";
              b_severity := Some "critical"; b_snapshot := None |} Samples.watched
           {| s_attemptId := "at1"; s_userId := "u1"; s_assessmentId := "a1";
              s_startTime := 1000; s_endTime := None; s_status := Active;
              s_settings := settingsDefaults None; s_events := [];
              s_anomalyScore := 0 |}).
  - vm_compute. reflexivity.
  - reflexivity.
  - reflexivity.
  - right. right. apply (bool_decide_unpack _). vm_compute. reflexivity.
Defined.

(** A session started without settings requires the webcam and the full
    screen and nothing else, and its owner reads that back from the
    lockdown route; any other user is refused. *)
Theorem lockdown_defaults (now : Z) (newId : string) (u other : User)
    (attemptId assessmentId : string) (st st' : State) (reply : SessionReply) :
  startSession now newId u attemptId assessmentId None st = (st', Ok reply) →
  sr_settings reply
  = {| webcam := {| required := true; enabled := false |};
       screenSharing := {| required := false; enabled := false |};
       audio := {| required := false; enabled := false |};
       fullScreenRequired := true; browserLockdown := false |}
  ∧ (∃ c, lockdown u newId st' = Ok c
          ∧ lc_fullScreenRequired c = true ∧ lc_browserLockdown c = false
          ∧ lc_preventCopyPaste c = true ∧ lc_preventTabSwitching c = true)
  ∧ (userId other ≠ userId u → lockdown other newId st' = Fail PermissionDenied).
Proof.
  unfold startSession. repeat case_match; try done.
  intros [= <- <-]. simpl. split; [done |].
  unfold lockdown. simpl. rewrite lookup_insert_eq. simpl.
  rewrite String.eqb_refl. simpl. split; [by eexists |].
  intros Hne. apply not_eq_sym, String.eqb_neq in Hne. by rewrite Hne.
Qed.

Lemma lockdown_defaults_witness :
  sr_settings {| sr_sessionId := "s1"; sr_settings := settingsDefaults None |}
  = {| webcam := {| required := true; enabled := false |};
       screenSharing := {| required := false; enabled := false |};
       audio := {| required := false; enabled := false |};
       fullScreenRequired := true; browserLockdown := false |}
  ∧ (∃ c, lockdown Samples.alice "s1" Samples.watched = Ok c
          ∧ lc_fullScreenRequired c = true ∧ lc_browserLockdown c = false
          ∧ lc_preventCopyPaste c = true ∧ lc_preventTabSwitching c = true)
  ∧ (userId Samples.bob ≠ userId Samples.alice →
     lockdown Samples.bob "s1" Samples.watched = Fail PermissionDenied).
Proof.
  apply (lockdown_defaults 1000 "s1" Samples.alice Samples.bob "at1" "a1" empty
           Samples.watched
           {| sr_sessionId := "s1"; sr_settings := settingsDefaults None |}).
  vm_compute. reflexivity.
Defined.


End Sessions.


End ProctorProofs.
